(** * Qdrant collection initializer: a model of [qdrant/init_collections.py]

    The script talks to a Qdrant server over HTTP, sleeps between liveness
    probes and prints progress lines.  The model is a shallow embedding:
    every function of the script is a computation in a small state and
    exception monad whose state is the history of observable events (HTTP
    exchanges, sleeps, printed lines).  The server is an arbitrary function
    from the number of requests already made and the request itself to an
    outcome, so a statement quantified over it covers every behaviour of the
    network and of the service.  How long a wait the operating system
    accepts is a parameter as well. *)

From Stdlib Require Import ZArith Lia.
From stdpp Require Import base list strings pretty gmap.

Local Open Scope Z_scope.

(** ** Python values the script handles *)

(** A decoded JSON document, as [response.json()] returns it. An object is
    kept as the list of its items in order (a decoded object has no
    duplicate key). *)
#[local] Unset Elimination Schemes.
Inductive json : Type :=
  | JNull
  | JBool (b : bool)
  | JNum (n : Z)
  | JStr (s : string)
  | JArr (items : list json)
  | JObj (fields : list (string * json)).
#[local] Set Elimination Schemes.

(** What the script reads of a [requests.Response]. [body] is [None] when
    the payload is not valid JSON, in which case [response.json()] raises. *)
Record response : Type := Response {
  status_code : Z;
  text : string;
  body : option json
}.

(** The ["vectors"] entry of a collection configuration. *)
Record vectors_config : Type := Vectors {
  vec_size : Z;
  vec_distance : string
}.

(** A field configuration is a dictionary such as [{"type": "text"}]. *)
Abbreviation field_config := (gmap string string).

(** The value bound to a collection name in [COLLECTIONS]. Both keys are
    looked up dynamically by the script, so both may be absent;
    ["payload_schema"] is iterated with [.items()], in insertion order. *)
Record collection_config : Type := Config {
  vectors : option vectors_config;
  payload_schema : option (list (string * field_config))
}.

(** The exceptions that can occur, with the part of Python's class
    hierarchy the handlers of the script distinguish. *)
Inductive exn : Type :=
  | RequestException
  | JSONDecodeError
  | KeyError (key : string)
  | AttributeError
  | TypeError
  | ValueError
  | OverflowError
  | OSError
  | SystemExit (code : Z).

(** [except Exception]: everything but [SystemExit]. *)
Definition is_Exception (e : exn) : bool :=
  match e with SystemExit _ => false | _ => true end.

(** [except requests.exceptions.RequestException]. The decoding error of
    [response.json()] is a subclass in current versions of requests; no
    handler of this kind encloses a call to [.json()]. *)
Definition is_RequestException (e : exn) : bool :=
  match e with RequestException | JSONDecodeError => true | _ => false end.

(** A bare [except:]. *)
Definition any_exception (e : exn) : bool := true.

(** ** Observable events *)

Inductive payload : Type :=
  | CreateBody (v : vectors_config)               (* {"vectors": ...} *)
  | IndexBody (field_name field_schema : string). (* {"field_name": ..., "field_schema": ...} *)

Inductive request : Type :=
  | GET (url : string)
  | PUT (url : string) (data : payload).

(** The two ways a call to [requests.get] or [requests.put] ends: a
    response, of any status, or a transport-level error. *)
Inductive outcome : Type :=
  | Responds (r : response)
  | Fails.

(** The pieces of a formatted line: literal text and interpolated values. *)
Inductive frag : Type :=
  | Lit (s : string)
  | Int (n : Z)
  | Exn (e : exn)
  | Val (v : json).

Inductive event : Type :=
  | EHttp (req : request) (out : outcome)
  | ESleep (secs : Z)
  | EPrint (line : list frag).

Definition trace := list event.

Definition is_http (ev : event) : bool :=
  match ev with EHttp _ _ => true | _ => false end.

(** Number of HTTP exchanges in a history. *)
Definition nreq (t : trace) : nat := length (List.filter is_http t).

(** ** The monad: history passing with exceptions *)

Inductive result (A : Type) : Type :=
  | Ret (a : A)
  | Raise (e : exn).
Arguments Ret {A} a.
Arguments Raise {A} e.

Definition M (A : Type) : Type := trace -> result A * trace.

Definition ret {A} (a : A) : M A := fun t => (Ret a, t).

Definition raise {A} (e : exn) : M A := fun t => (Raise e, t).

Definition bind {A B} (m : M A) (k : A -> M B) : M B :=
  fun t =>
    match m t with
    | (Ret a, t') => k a t'
    | (Raise e, t') => (Raise e, t')
    end.

(** [try: m except <class> as e: handler e]. *)
Definition try_except {A} (m : M A) (catches : exn -> bool) (handler : exn -> M A) : M A :=
  fun t =>
    match m t with
    | (Ret a, t') => (Ret a, t')
    | (Raise e, t') => if catches e then handler e t' else (Raise e, t')
    end.

Declare Scope prog_scope.
Delimit Scope prog_scope with prog.
Notation "'let!' x ':=' m 'in' k" := (bind m (fun x => k))
  (at level 10, x name, m at level 100, k at level 200) : prog_scope.
Notation "'do!' m 'in' k" := (bind m (fun _ => k))
  (at level 10, m at level 100, k at level 200) : prog_scope.
Local Open Scope prog_scope.

Definition emit (ev : event) : M unit := fun t => (Ret tt, t ++ [ev]).

Definition print (line : list frag) : M unit := emit (EPrint line).

Definition when (b : bool) (m : M unit) : M unit := if b then m else ret tt.

(** [for x in xs: body x], where the body may [return] from the enclosing
    function ([Some v]) or fall through to the next iteration ([None]). *)
Fixpoint for_in {A R} (xs : list A) (body : A -> M (option R)) : M (option R) :=
  match xs with
  | [] => ret None
  | x :: xs' =>
      let! r := body x in
      match r with
      | Some v => ret (Some v)
      | None => for_in xs' body
      end
  end.

(** [for x in xs: body x] without [return]. *)
Fixpoint for_each {A} (xs : list A) (body : A -> M unit) : M unit :=
  match xs with
  | [] => ret tt
  | x :: xs' => do! body x in for_each xs' body
  end.

(** A loop that updates a local variable. *)
Fixpoint for_fold {A S} (xs : list A) (acc : S) (body : A -> S -> M S) : M S :=
  match xs with
  | [] => ret acc
  | x :: xs' => let! acc' := body x acc in for_fold xs' acc' body
  end.

(** Running a computation on every element and collecting the results. *)
Fixpoint map_m {A B} (f : A -> M B) (xs : list A) : M (list B) :=
  match xs with
  | [] => ret []
  | x :: xs' =>
      let! y := f x in
      let! ys := map_m f xs' in
      ret (y :: ys)
  end.

(** [range(n)]. *)
Definition range (n : Z) : list Z := map Z.of_nat (seq 0 (Z.to_nat n)).

(** *** Sleeping

    [time.sleep(secs)] first converts its argument to a signed 64-bit count
    of nanoseconds and raises [OverflowError] when it does not fit, which
    for a whole number of seconds means beyond 9223372036 in either
    direction. It then raises [ValueError] for a negative length, and
    finally asks the operating system to wait. How long a wait the system
    accepts, and what is raised for a longer one, differs between
    interpreters and systems, and from one moment to the next: on Linux the
    wait has an absolute deadline on the monotonic clock, which must stay
    below 9223372036 seconds, so that the longest wait shrinks as the clock
    advances ([OSError] beyond it); older Windows builds count milliseconds
    in 32 bits ([OverflowError] beyond them). This is a parameter of the
    model, a function of what the script has done so far. The model assumes
    that the clock stays far from the end of its range, 292 years after the
    machine started: a wait of up to [SHORT_SLEEP] seconds is accepted at
    any moment. *)
Record platform : Type := Platform {
  (* the longest wait, in seconds, the system accepts after the given trace *)
  longest_sleep : trace -> Z;
  (* whether a longer one raises OverflowError rather than OSError *)
  long_sleep_overflows : bool
}.

(** The largest whole number of seconds whose nanoseconds fit 64 bits. *)
Definition SECONDS_MAX : Z := 9223372036.

(** A wait every platform accepts at any moment: 32 bits of milliseconds. *)
Definition SHORT_SLEEP : Z := 4294967.

(** The longest sleep on a platform after the trace [t], kept between the
    two bounds above. *)
Definition sleep_limit (pf : platform) (t : trace) : Z :=
  Z.max SHORT_SLEEP (Z.min (longest_sleep pf t) SECONDS_MAX).

(** The exception [time.sleep(secs)] raises after the trace [t], if it
    raises. *)
Definition sleep_refusal (pf : platform) (t : trace) (secs : Z) : option exn :=
  if (secs <? - SECONDS_MAX) || (SECONDS_MAX <? secs) then Some OverflowError
  else if secs <? 0 then Some ValueError
  else if sleep_limit pf t <? secs
       then Some (if long_sleep_overflows pf then OverflowError else OSError)
       else None.

(** [time.sleep(secs)]. *)
Definition sleep (pf : platform) (secs : Z) : M unit :=
  fun t =>
    match sleep_refusal pf t secs with
    | Some e => raise e t
    | None => emit (ESleep secs) t
    end.

(** [sys.exit(code)]. *)
Definition sys_exit {A} (code : Z) : M A := raise (SystemExit code).

(** [status in [200, 201]]. *)
Definition created_status (status : Z) : bool :=
  (status =? 200) || (status =? 201).

(** *** Operations on decoded JSON *)

Fixpoint assoc {V} (key : string) (items : list (string * V)) : option V :=
  match items with
  | [] => None
  | (k, v) :: rest => if String.eqb k key then Some v else assoc key rest
  end.

(** [response.json()]. *)
Definition response_json (r : response) : M json :=
  match body r with
  | Some v => ret v
  | None => raise JSONDecodeError
  end.

(** [v.get(key, default)]: only a dictionary has the method. *)
Definition json_get (v : json) (key : string) (default : json) : M json :=
  match v with
  | JObj fields =>
      match assoc key fields with
      | Some x => ret x
      | None => ret default
      end
  | _ => raise AttributeError
  end.

(** A value in a boolean position ([if collections:]). *)
Definition truthy (v : json) : bool :=
  match v with
  | JNull => false
  | JBool b => b
  | JNum n => negb (n =? 0)
  | JStr s => negb (String.eqb s EmptyString)
  | JArr items => negb (Nat.eqb (length items) 0)
  | JObj fields => negb (Nat.eqb (length fields) 0)
  end.

(** [iter(v)], as a [for] statement calls it: the elements of a list, the
    keys of a dictionary, the characters of a string; anything else is not
    iterable. *)
Definition json_iter (v : json) : M (list json) :=
  match v with
  | JArr items => ret items
  | JObj fields => ret (map (fun kv => JStr (fst kv)) fields)
  | JStr s => ret (map (fun c => JStr (String c EmptyString)) (String.list_ascii_of_string s))
  | _ => raise TypeError
  end.

(** [v[key]] for a string key. *)
Definition json_index (v : json) (key : string) : M json :=
  match v with
  | JObj fields =>
      match assoc key fields with
      | Some x => ret x
      | None => raise (KeyError key)
      end
  | _ => raise TypeError
  end.

(** [d.get(key, default)] on a field configuration. *)
Definition dict_get (d : field_config) (key : string) (dflt : string) : string :=
  default dflt (d !! key).

(** ** Configuration *)

Definition QDRANT_HOST : string := "localhost".
Definition QDRANT_PORT : Z := 6333.
Definition QDRANT_URL : string :=
  "http://" +:+ QDRANT_HOST +:+ ":" +:+ pretty QDRANT_PORT.

(** The resources the script addresses. *)
Definition root_url : string := QDRANT_URL +:+ "/".
Definition listing_url : string := QDRANT_URL +:+ "/collections".
Definition collection_url (name : string) : string :=
  QDRANT_URL +:+ "/collections/" +:+ name.
Definition index_url (name : string) : string :=
  QDRANT_URL +:+ "/collections/" +:+ name +:+ "/index".

Definition typed (ty : string) : field_config := {[ "type" := ty ]}.

(** The collections to create, in the order of the dictionary literal. *)
Definition COLLECTIONS : list (string * collection_config) :=
  [ ("documents",
     {| vectors := Some {| vec_size := 1536; vec_distance := "Cosine" |};
        payload_schema := Some
          [ ("title", typed "text");
            ("content", typed "text");
            ("source", typed "keyword");
            ("timestamp", typed "integer");
            ("metadata", typed "json") ] |});
    ("chat_history",
     {| vectors := Some {| vec_size := 768; vec_distance := "Cosine" |};
        payload_schema := Some
          [ ("user", typed "keyword");
            ("message", typed "text");
            ("response", typed "text");
            ("timestamp", typed "integer");
            ("session_id", typed "keyword") ] |});
    ("code_snippets",
     {| vectors := Some {| vec_size := 768; vec_distance := "Cosine" |};
        payload_schema := Some
          [ ("language", typed "keyword");
            ("code", typed "text");
            ("description", typed "text");
            ("tags", typed "keyword[]");
            ("project", typed "keyword") ] |});
    ("knowledge_base",
     {| vectors := Some {| vec_size := 1024; vec_distance := "Cosine" |};
        payload_schema := Some
          [ ("title", typed "text");
            ("content", typed "text");
            ("category", typed "keyword");
            ("tags", typed "keyword[]");
            ("url", typed "keyword");
            ("last_updated", typed "integer") ] |}) ].

Definition nl : string := String (Ascii.ascii_of_nat 10) EmptyString.

(** ["=" * 60]. *)
Definition rule : string := String.concat EmptyString (replicate 60 "=").

(** ** The script *)

Section Script.

(** The interpreter and the system the script runs on. *)
Variable pf : platform.

(** The server and the network: the outcome of the request made after
    [n] earlier ones. *)
Variable env : nat -> request -> outcome.

Definition http (req : request) : M response :=
  fun t =>
    let out := env (nreq t) req in
    match out with
    | Responds r => (Ret r, t ++ [EHttp req out])
    | Fails => (Raise RequestException, t ++ [EHttp req out])
    end.

Definition requests_get (url : string) : M response := http (GET url).

Definition requests_put (url : string) (data : payload) : M response :=
  http (PUT url data).

(** One iteration of the polling loop of [wait_for_qdrant]. *)
Definition wait_attempt (max_retries delay i : Z) : M (option bool) :=
  let! returned :=
    try_except
      (let! response := requests_get root_url in
       if status_code response =? 200 then
         do! print [Lit "✓ Qdrant is ready!"] in
         ret (Some true)
       else ret None)
      is_RequestException
      (fun e =>
         do! when (i =? 0) (print [Lit "  Connection attempt failed: "; Exn e]) in
         ret None) in
  match returned with
  | Some b => ret (Some b)
  | None =>
      do! when (i <? max_retries - 1)
            (do! print [Lit "  Retry "; Int (i + 1); Lit "/"; Int max_retries; Lit "..."] in
             sleep pf delay) in
      ret None
  end.

Definition wait_for_qdrant (max_retries delay : Z) : M bool :=
  do! print [Lit "Waiting for Qdrant at "; Lit QDRANT_URL; Lit "..."] in
  let! returned := for_in (range max_retries) (wait_attempt max_retries delay) in
  match returned with
  | Some b => ret b
  | None =>
      do! print [Lit "✗ Qdrant is not available after maximum retries"] in
      ret false
  end.

Definition collection_exists (collection_name : string) : M bool :=
  try_except
    (let! response := requests_get (collection_url collection_name) in
     ret (status_code response =? 200))
    any_exception
    (fun _ => ret false).

(** The body of the loop over [config["payload_schema"].items()]. *)
Definition index_payload (field_name : string) (fc : field_config) : payload :=
  IndexBody field_name (dict_get fc "type" "keyword").

Definition create_index (name : string) (field : string * field_config) : M unit :=
  let (field_name, fc) := field in
  let! index_response :=
    requests_put (index_url name) (index_payload field_name fc) in
  when (created_status (status_code index_response))
       (print [Lit "    → Indexed field '"; Lit field_name; Lit "'"]).

Definition create_collection (name : string) (config : collection_config) : M bool :=
  let! present := collection_exists name in
  if present then
    do! print [Lit "  → Collection '"; Lit name; Lit "' already exists, skipping..."] in
    ret true
  else
    try_except
      (let! vs :=
         match vectors config with
         | Some v => ret v
         | None => raise (KeyError "vectors")
         end in
       let! response := requests_put (collection_url name) (CreateBody vs) in
       if created_status (status_code response) then
         do! print [Lit "  ✓ Created collection '"; Lit name; Lit "'"] in
         do! match payload_schema config with
             | Some fields => for_each fields (create_index name)
             | None => ret tt
             end in
         ret true
       else
         do! print [Lit "  ✗ Failed to create collection '"; Lit name; Lit "': ";
                    Lit (text response)] in
         ret false)
      is_Exception
      (fun e =>
         do! print [Lit "  ✗ Error creating collection '"; Lit name; Lit "': "; Exn e] in
         ret false).

Definition print_collection (col : json) : M unit :=
  let! name := json_index col "name" in
  print [Lit "  • "; Val name].

Definition list_collections : M unit :=
  try_except
    (let! response := requests_get listing_url in
     if status_code response =? 200 then
       let! data := response_json response in
       let! res := json_get data "result" (JObj []) in
       let! collections := json_get res "collections" (JArr []) in
       if truthy collections then
         do! print [Lit nl; Lit "Existing collections:"] in
         let! cols := json_iter collections in
         for_each cols print_collection
       else
         print [Lit nl; Lit "No collections found"]
     else ret tt)
    is_Exception
    (fun e => print [Lit "Error listing collections: "; Exn e]).

(** The best-effort version banner of [main]. *)
Definition print_version : M unit :=
  try_except
    (let! response := requests_get root_url in
     if status_code response =? 200 then
       let! info := response_json response in
       let! version := json_get info "version" (JStr "Unknown") in
       print [Lit nl; Lit "Qdrant version: "; Val version]
     else ret tt)
    any_exception
    (fun _ => ret tt).

(** The call [create_collection(name, config)] for an item of the table. *)
Definition provision_item (item : string * collection_config) : M bool :=
  create_collection (fst item) (snd item).

(** The body of the loop of [main]: [success_count] after one item. *)
Definition tally (item : string * collection_config) (success_count : Z) : M Z :=
  let! ok := provision_item item in
  if ok then ret (success_count + 1) else ret success_count.

(** The loop of [main] over [COLLECTIONS.items()], with the table as an
    argument; it returns the final [success_count]. *)
Definition count_created (table : list (string * collection_config)) : M Z :=
  for_fold table 0 tally.

Definition summary_line (success_count total : Z) : list frag :=
  [Lit nl; Lit "Created "; Int success_count; Lit "/"; Int total;
   Lit " collections successfully"].

(** Lines 192 to 199 of the script: the provisioning loop and its summary. *)
Definition provision (table : list (string * collection_config)) : M unit :=
  do! print [Lit nl; Lit "Creating collections..."] in
  let! success_count := count_created table in
  print (summary_line success_count (Z.of_nat (length table))).

Definition main : M unit :=
  do! print [Lit rule] in
  do! print [Lit "Qdrant Collection Initializer"] in
  do! print [Lit rule] in
  let! available := wait_for_qdrant 30 2 in
  do! (if negb available then
         do! print [Lit nl; Lit "Exiting: Qdrant is not available"] in
         sys_exit 1
       else ret tt) in
  do! print_version in
  do! provision COLLECTIONS in
  do! list_collections in
  do! print [Lit nl; Lit rule] in
  do! print [Lit "Initialization complete!"] in
  do! print [Lit "Qdrant UI available at: "; Lit QDRANT_URL; Lit "/dashboard"] in
  print [Lit rule].

End Script.

(** The exit status of the interpreter once [main()] has ended: 0 after a
    normal return, the argument of [sys.exit], and 1 for an exception nobody
    caught. *)
Definition exit_status {A} (r : result A) : Z :=
  match r with
  | Ret _ => 0
  | Raise (SystemExit code) => code
  | Raise _ => 1
  end.

(** The script as a process: [main()] from an empty history. *)
Definition run (pf : platform) (env : nat -> request -> outcome) : Z * trace :=
  let (r, t) := main pf env [] in (exit_status r, t).

(** ** Observations on histories, for the statements below *)

(** A liveness attempt fails when it raises or answers with a status other
    than 200. *)
Definition attempt_fails (out : outcome) : bool :=
  match out with
  | Responds r => negb (status_code r =? 200)
  | Fails => true
  end.

(** What the prober does besides printing: requests and sleeps. *)
Inductive action : Type :=
  | Attempt (req : request)
  | Sleep (secs : Z).

Definition action_of (ev : event) : option action :=
  match ev with
  | EHttp req _ => Some (Attempt req)
  | ESleep secs => Some (Sleep secs)
  | EPrint _ => None
  end.

Definition actions (t : trace) : list action := omap action_of t.

(** The actions of iteration [i] of the polling loop when its request
    fails: the loop sleeps unless the iteration is the last. *)
Definition failed_round (max_retries delay i : Z) : list action :=
  Attempt (GET root_url) :: (if i <? max_retries - 1 then [Sleep delay] else []).

(** [n] liveness attempts with a sleep between consecutive ones: [n - 1]
    rounds of attempt and sleep, then the last attempt. *)
Definition polling (n : nat) (delay : Z) : list action :=
  match n with
  | O => []
  | S m => concat (replicate m [Attempt (GET root_url); Sleep delay])
           ++ [Attempt (GET root_url)]
  end.

(** The lengths of the sleeps and the requests attempted, in order. *)
Definition sleeps (t : trace) : list Z :=
  omap (fun a => match a with Sleep secs => Some secs | _ => None end) (actions t).

Definition attempts (t : trace) : list request :=
  omap (fun a => match a with Attempt req => Some req | _ => None end) (actions t).

(** All of [attempts] consecutive liveness requests fail, the first being
    request number [n0]. *)
Definition never_ready (env : nat -> request -> outcome) (n0 attempts : nat) : bool :=
  forallb (fun j => attempt_fails (env (n0 + j)%nat (GET root_url))) (seq 0 attempts).

(** The requests that write: address and body of every PUT. *)
Definition put_requests (t : trace) : list (string * payload) :=
  omap (fun ev => match ev with
                  | EHttp (PUT url data) _ => Some (url, data)
                  | _ => None
                  end) t.

(** Field name and schema of every index request. *)
Definition index_requests (t : trace) : list (string * string) :=
  omap (fun ev => match ev with
                  | EHttp (PUT _ (IndexBody field_name field_schema)) _ =>
                      Some (field_name, field_schema)
                  | _ => None
                  end) t.

(** The creation request for [name] was answered with status 200 or 201. *)
Definition creation_succeeded (name : string) (t : trace) : bool :=
  existsb (fun ev => match ev with
                     | EHttp (PUT url (CreateBody _)) (Responds r) =>
                         String.eqb url (collection_url name)
                         && created_status (status_code r)
                     | _ => false
                     end) t.

(** Some index request ended in a transport-level error. *)
Definition index_raised (t : trace) : bool :=
  existsb (fun ev => match ev with
                     | EHttp (PUT _ (IndexBody _ _)) Fails => true
                     | _ => false
                     end) t.

Definition printed (t : trace) : list (list frag) :=
  omap (fun ev => match ev with EPrint line => Some line | _ => None end) t.

(** The text of a line whose interpolated values are strings and integers. *)
Definition frag_text (f : frag) : option string :=
  match f with
  | Lit s => Some s
  | Int n => Some (pretty n)
  | Val (JStr s) => Some s
  | _ => None
  end.

Fixpoint line_text (line : list frag) : option string :=
  match line with
  | [] => Some EmptyString
  | f :: rest =>
      match frag_text f, line_text rest with
      | Some a, Some b => Some (a +:+ b)
      | _, _ => None
      end
  end.

Definition count_true (bs : list bool) : Z :=
  Z.of_nat (length (List.filter (fun b => b) bs)).

(** The schema a field configuration declares: its ["type"] entry, or
    ["keyword"] when it has none. *)
Definition declared_schema (fc : field_config) : string :=
  match fc !! "type" with
  | Some ty => ty
  | None => "keyword"
  end.

(** The index request expected for an item of a payload schema. *)
Definition field_index (field : string * field_config) : string * string :=
  (fst field, declared_schema (snd field)).

(** What the existence checker makes of the outcome of its request. *)
Definition found (out : outcome) : bool :=
  match out with
  | Responds r => status_code r =? 200
  | Fails => false
  end.

(** ** Sample platforms and servers *)

(** The seconds the script has slept so far. *)
Definition slept (t : trace) : Z := fold_right Z.add 0 (sleeps t).

(** A Linux machine whose monotonic clock stood at four hours when the
    script started, and on which requests take no time: a wait must end
    before the clock reaches 9223372036 seconds. *)
Definition linux : platform :=
  {| longest_sleep := fun t => SECONDS_MAX - 1 - (14400 + slept t);
     long_sleep_overflows := false |}.

(** A platform that counts the milliseconds of a wait in 32 bits. *)
Definition win32 : platform :=
  {| longest_sleep := fun _ => 4294967; long_sleep_overflows := true |}.

Definition ok_response : response :=
  {| status_code := 200; text := "{}"; body := Some (JObj []) |}.

Definition error_response : response :=
  {| status_code := 500; text := "internal error"; body := None |}.

(** A server that is unreachable for the first two requests. *)
Definition ready_on_third (n : nat) (req : request) : outcome :=
  if (n <? 2)%nat then Fails else Responds ok_response.

(** A network that is always down. *)
Definition unreachable (n : nat) (req : request) : outcome := Fails.

(** A server that answers every request with status 500. *)
Definition always_500 (n : nat) (req : request) : outcome :=
  Responds error_response.

(** A server that knows every collection. *)
Definition always_200 (n : nat) (req : request) : outcome :=
  Responds ok_response.

(** A fresh store that creates collections and refuses index requests. *)
Definition refuses_indexes (n : nat) (req : request) : outcome :=
  match req with
  | GET _ => Responds {| status_code := 404; text := "Not found"; body := None |}
  | PUT _ (CreateBody _) => Responds ok_response
  | PUT _ (IndexBody _ _) => Responds error_response
  end.

(** A fresh store that creates collections, after which the connection
    breaks during the first index request. *)
Definition drops_on_index (n : nat) (req : request) : outcome :=
  match req with
  | GET _ => Responds {| status_code := 404; text := "Not found"; body := None |}
  | PUT _ (CreateBody _) => Responds ok_response
  | PUT _ (IndexBody _ _) => Fails
  end.

Definition sample_config : collection_config :=
  {| vectors := Some {| vec_size := 4; vec_distance := "Cosine" |};
     payload_schema := Some [("title", typed "text"); ("owner", ∅)] |}.

(** The history before the prober runs: the banner of [main]. *)
Definition banner : trace :=
  [EPrint [Lit rule]; EPrint [Lit "Qdrant Collection Initializer"]; EPrint [Lit rule]].

(** ** How a computation may end *)

(** [m] returns normally from every history. *)
Definition returns {A} (m : M A) : Prop :=
  forall t, exists a t', m t = (Ret a, t').

(** [m] raises nothing but exceptions of the class [P]. *)
Definition raises_only (P : exn -> bool) {A} (m : M A) : Prop :=
  forall t, match fst (m t) with
            | Ret _ => True
            | Raise e => P e = true
            end.

(** ** Further observations and sample data *)

(** The addresses read with GET, in order. *)
Definition gets (t : trace) : list string :=
  omap (fun req => match req with GET url => Some url | PUT _ _ => None end)
       (attempts t).

(** The writes among a list of requests. *)
Definition puts_of (reqs : list request) : list (string * payload) :=
  omap (fun req => match req with PUT url data => Some (url, data) | GET _ => None end)
       reqs.

(** The index request for an item of the payload schema of [name]. *)
Definition index_put (name : string) (field : string * field_config) : request :=
  PUT (index_url name) (IndexBody (fst field) (declared_schema (snd field))).

(** The writes of a complete provisioning of one item of the table: the
    creation request, then one index request per payload field. *)
Definition expected_puts (item : string * collection_config) : list (string * payload) :=
  match vectors (snd item) with
  | Some vs =>
      (collection_url (fst item), CreateBody vs)
      :: map (fun field : string * field_config =>
                (index_url (fst item),
                 IndexBody (fst field) (declared_schema (snd field))))
             (default [] (payload_schema (snd item)))
  | None => []
  end.

(** How often the line reporting a failed connection was printed. *)
Definition connection_failures (t : trace) : nat :=
  length (List.filter
            (fun ev => match ev with
                       | EPrint [Lit s; Exn _] =>
                           String.eqb s "  Connection attempt failed: "
                       | _ => false
                       end) t).

(** The line [list_collections] prints for a collection called [name]. *)
Definition collection_line (name : json) : event :=
  EPrint [Lit "  • "; Val name].

(** The statements under [try] in [list_collections] (lines 156 to 166 of
    the script), without the handler. *)
Definition listing_block (env : nat -> request -> outcome) : M unit :=
  let! response := requests_get env listing_url in
  if status_code response =? 200 then
    let! data := response_json response in
    let! res := json_get data "result" (JObj []) in
    let! collections := json_get res "collections" (JArr []) in
    if truthy collections then
      do! print [Lit nl; Lit "Existing collections:"] in
      let! cols := json_iter collections in
      for_each cols print_collection
    else
      print [Lit nl; Lit "No collections found"]
  else ret tt.

(** The diagnostic of [list_collections] for the exception [e]. *)
Definition listing_error_line (e : exn) : event :=
  EPrint [Lit "Error listing collections: "; Exn e].

(** The last lines of a run of [main] that completes. *)
Definition closing_banner : trace :=
  [EPrint [Lit nl; Lit rule];
   EPrint [Lit "Initialization complete!"];
   EPrint [Lit "Qdrant UI available at: "; Lit QDRANT_URL; Lit "/dashboard"];
   EPrint [Lit rule]].

(** The answer to the version request carries no version to print: the
    request raised, the status is not 200, or the body is not a JSON
    object. *)
Definition no_version (out : outcome) : bool :=
  match out with
  | Fails => true
  | Responds r =>
      negb (status_code r =? 200)
      || match body r with
         | Some (JObj _) => false
         | _ => true
         end
  end.

(** [m] does nothing but print, and raises only exceptions of class [P]. *)
Definition quiet (P : exn -> bool) {A} (m : M A) : Prop :=
  forall t, exists r lines,
    m t = (r, t ++ map EPrint lines)
    /\ match r with Ret _ => True | Raise e => P e = true end.

(** A listing of two collections, as the service answers it. *)
Definition sample_listing : response :=
  {| status_code := 200;
     text := "";
     body := Some (JObj [("result",
                          JObj [("collections",
                                 JArr [JObj [("name", JStr "documents")];
                                       JObj [("name", JStr "chat_history")]])]);
                         ("status", JStr "ok")]) |}.

(** A listing whose second entry has no name. *)
Definition broken_listing : response :=
  {| status_code := 200;
     text := "";
     body := Some (JObj [("result",
                          JObj [("collections",
                                 JArr [JObj [("name", JStr "documents")];
                                       JObj [("id", JNum 7)];
                                       JObj [("name", JStr "chat_history")]])])]) |}.

(** A 200 answer without a [result] entry. *)
Definition bare_response : response :=
  {| status_code := 200; text := ""; body := Some (JObj [("status", JStr "ok")]) |}.

(** The answer of the root address of a running service. *)
Definition version_response : response :=
  {| status_code := 200;
     text := "";
     body := Some (JObj [("title", JStr "qdrant"); ("version", JStr "1.7.4")]) |}.

Definition not_found : response :=
  {| status_code := 404; text := "Not found"; body := None |}.

Definition answers (r : response) (n : nat) (req : request) : outcome := Responds r.

(** A running service with an empty store that accepts every write. *)
Definition fresh_store (n : nat) (req : request) : outcome :=
  match req with
  | GET url => if String.eqb url root_url then Responds version_response
               else Responds not_found
  | PUT _ _ => Responds ok_response
  end.

(** A running service that refuses to create collections. *)
Definition refuses_creation (n : nat) (req : request) : outcome :=
  match req with
  | GET url => if String.eqb url root_url then Responds version_response
               else Responds not_found
  | PUT _ _ => Responds error_response
  end.

(** A configuration without the ["vectors"] key. *)
Definition no_vectors : collection_config :=
  {| vectors := None; payload_schema := Some [("title", typed "text")] |}.

(** A small table for the examples. *)
Definition sample_table : list (string * collection_config) :=
  [("documents", sample_config); ("notes", no_vectors)].

(** * Properties *)

(** ** Histories *)

Lemma nreq_app (t u : trace) : nreq (t ++ u) = (nreq t + nreq u)%nat.
Proof. unfold nreq. by rewrite List.filter_app, length_app. Qed.

Lemma actions_app (t u : trace) : actions (t ++ u) = actions t ++ actions u.
Proof. apply omap_app. Qed.

Lemma polling_sleeps (n : nat) (delay : Z) (t : trace) :
  actions t = polling n delay -> sleeps t = replicate (n - 1) delay.
Proof.
  intros H. unfold sleeps. rewrite H. destruct n as [|m]; [done|].
  clear H. cbn [polling]. rewrite Nat.sub_succ, Nat.sub_0_r, omap_app.
  induction m as [|m IH]; [done|]. cbn. cbn in IH. by rewrite IH.
Qed.

Lemma polling_attempts (n : nat) (delay : Z) (t : trace) :
  actions t = polling n delay -> attempts t = replicate n (GET root_url).
Proof.
  intros H. unfold attempts. rewrite H. destruct n as [|m]; [done|].
  clear H. cbn [polling]. rewrite omap_app.
  induction m as [|m IH]; [done|]. cbn. cbn in IH. by rewrite IH.
Qed.

(** ** The monad and its loops *)

Lemma for_in_app {A R} (xs ys : list A) (body : A -> M (option R)) (t t' : trace) :
  for_in xs body t = (Ret None, t') ->
  for_in (xs ++ ys) body t = for_in ys body t'.
Proof.
  revert t. induction xs as [|x xs IH]; intros t H; cbn in *.
  - unfold ret in H. by inversion H.
  - unfold bind in *. destruct (body x t) as [[[v|]|e] t1]; try done.
    by apply IH.
Qed.

Lemma bind_run {A B} (m : M A) (k : A -> M B) (t t' : trace) (a : A) :
  m t = (Ret a, t') -> bind m k t = k a t'.
Proof. intros H. unfold bind. by rewrite H. Qed.

(** ** The availability prober *)

(** ** Sleeping *)

Lemma sleep_limit_bounds (pf : platform) (t : trace) :
  SHORT_SLEEP <= sleep_limit pf t <= SECONDS_MAX.
Proof. unfold sleep_limit, SHORT_SLEEP, SECONDS_MAX. lia. Qed.

(** A length between 0 and the limit of the platform is slept. *)
Lemma sleep_accepted (pf : platform) (t : trace) (secs : Z) :
  0 <= secs <= sleep_limit pf t -> sleep_refusal pf t secs = None.
Proof.
  intros H. pose proof (sleep_limit_bounds pf t) as Hb. unfold sleep_refusal.
  assert ((secs <? - SECONDS_MAX) = false) as -> by (unfold SECONDS_MAX in *; lia).
  assert ((SECONDS_MAX <? secs) = false) as -> by lia.
  assert ((secs <? 0) = false) as -> by lia.
  by assert ((sleep_limit pf t <? secs) = false) as -> by lia.
Qed.

(** A length that is within the limit at every moment is always slept. *)
Lemma sleep_always_accepted (pf : platform) (secs : Z) :
  (forall t, 0 <= secs <= sleep_limit pf t) ->
  forall t, sleep_refusal pf t secs = None.
Proof. intros H t. apply sleep_accepted, H. Qed.

(** Two seconds, the delay [main] uses, are slept on every platform, at any
    moment. *)
Lemma sleep_two (pf : platform) (t : trace) : sleep_refusal pf t 2 = None.
Proof.
  apply sleep_accepted. pose proof (sleep_limit_bounds pf t).
  unfold SHORT_SLEEP in *. lia.
Qed.


(** What [time.sleep] does with some lengths on the sample Linux machine,
    as observed with CPython 3.11 on Linux. The last line is the clock at
    work: after a wait of 4611686018 seconds a second one is too long. *)
Example sleep_samples :
  sleep linux (2 ^ 64) [] = (Raise OverflowError, [])
  /\ sleep linux 9223372037 [] = (Raise OverflowError, [])
  /\ sleep linux 9223372036 [] = (Raise OSError, [])
  /\ sleep linux 9223000000 [] = (Ret tt, [ESleep 9223000000])
  /\ sleep linux 2 [] = (Ret tt, [ESleep 2])
  /\ sleep linux 0 [] = (Ret tt, [ESleep 0])
  /\ sleep linux (-1) [] = (Raise ValueError, [])
  /\ sleep linux (-9223372036) [] = (Raise ValueError, [])
  /\ sleep linux (-9223372037) [] = (Raise OverflowError, [])
  /\ sleep linux (- 2 ^ 64) [] = (Raise OverflowError, [])
  /\ sleep linux 4611686018 [ESleep 4611686018] = (Raise OSError, [ESleep 4611686018]).
Proof. split_and!; vm_compute; reflexivity. Qed.

Section Prober.

Variable pf : platform.
Variable env : nat -> request -> outcome.
Variables max_retries delay : Z.

Lemma wait_attempt_ready (i : Z) (t : trace) (r : response) :
  env (nreq t) (GET root_url) = Responds r ->
  status_code r = 200 ->
  wait_attempt pf env max_retries delay i t =
    (Ret (Some true),
     t ++ [EHttp (GET root_url) (Responds r); EPrint [Lit "✓ Qdrant is ready!"]]).
Proof.
  intros Henv Hst.
  unfold wait_attempt, bind, try_except, requests_get, http.
  rewrite Henv, Hst. cbn. by rewrite <- app_assoc.
Qed.

Lemma wait_attempt_failed (i : Z) (t : trace) :
  attempt_fails (env (nreq t) (GET root_url)) = true ->
  (forall t', sleep_refusal pf t' delay = None) ->
  exists new,
    wait_attempt pf env max_retries delay i t = (Ret None, t ++ new)
    /\ nreq new = 1%nat
    /\ actions new = failed_round max_retries delay i.
Proof.
  intros Hfail Hdelay. unfold failed_round.
  unfold wait_attempt, bind, try_except, requests_get, http, sleep.
  destruct (env (nreq t) (GET root_url)) as [r|] eqn:Henv; cbn in Hfail.
  - apply negb_true_iff in Hfail. rewrite Hfail. cbn.
    destruct (i <? max_retries - 1); cbn; rewrite ?Hdelay; cbn;
      rewrite <- ?app_assoc; eexists; split_and!; reflexivity.
  - cbn. destruct (i =? 0), (i <? max_retries - 1); cbn; rewrite ?Hdelay; cbn;
      rewrite <- ?app_assoc; eexists; split_and!; reflexivity.
Qed.

(** A run of [k] failing iterations, starting at index [a]. *)
Lemma polling_fails (k : nat) : forall (a : nat) (t : trace),
  (forall t', sleep_refusal pf t' delay = None) ->
  (forall j, (j < k)%nat ->
             attempt_fails (env (nreq t + j)%nat (GET root_url)) = true) ->
  exists new,
    for_in (map Z.of_nat (seq a k)) (wait_attempt pf env max_retries delay) t = (Ret None, t ++ new)
    /\ nreq new = k
    /\ actions new = concat (map (failed_round max_retries delay) (map Z.of_nat (seq a k))).
Proof.
  induction k as [|k IH]; intros a t Hd Hf.
  - exists []. cbn. unfold ret. by rewrite app_nil_r.
  - destruct (wait_attempt_failed (Z.of_nat a) t) as (n1 & E1 & N1 & A1);
      [rewrite <- (Nat.add_0_r (nreq t)); apply Hf; lia | done |].
    destruct (IH (S a) (t ++ n1)) as (n2 & E2 & N2 & A2); [done | |].
    { intros j Hj. rewrite nreq_app, N1.
      replace (nreq t + 1 + j)%nat with (nreq t + S j)%nat by lia.
      apply Hf. lia. }
    exists (n1 ++ n2). cbn [seq map for_in]. unfold bind.
    rewrite E1, E2, app_assoc. split_and!; [done | rewrite nreq_app; lia |].
    rewrite actions_app, A1, A2. done.
Qed.

(** Before the last index every failing iteration ends with a sleep. *)
Lemma rounds_sleep (k : nat) : forall a : nat,
  Z.of_nat (a + k) <= max_retries - 1 ->
  concat (map (failed_round max_retries delay) (map Z.of_nat (seq a k)))
  = concat (replicate k [Attempt (GET root_url); Sleep delay]).
Proof.
  induction k as [|k IH]; intros a H; cbn; [done|].
  rewrite IH by lia. unfold failed_round.
  by assert ((Z.of_nat a <? max_retries - 1) = true) as -> by lia.
Qed.

(** The loop when the request of iteration [m] is the first to succeed. *)
Lemma polling_succeeds (m : nat) (rest : list Z) (t : trace) (r : response) :
  (forall t', sleep_refusal pf t' delay = None) ->
  Z.of_nat m <= max_retries - 1 ->
  (forall j, (j < m)%nat ->
             attempt_fails (env (nreq t + j)%nat (GET root_url)) = true) ->
  env (nreq t + m)%nat (GET root_url) = Responds r ->
  status_code r = 200 ->
  exists new,
    for_in (map Z.of_nat (seq 0 m) ++ Z.of_nat m :: rest)
           (wait_attempt pf env max_retries delay) t
    = (Ret (Some true), t ++ new ++ [EPrint [Lit "✓ Qdrant is ready!"]])
    /\ actions new = polling (S m) delay.
Proof.
  intros Hd Hm Hf Henv Hst.
  destruct (polling_fails m 0 t Hd Hf) as (n1 & E1 & N1 & A1).
  rewrite (for_in_app _ _ _ _ _ E1). cbn [for_in]. unfold bind.
  rewrite (wait_attempt_ready (Z.of_nat m) (t ++ n1) r);
    [| by rewrite nreq_app, N1 | done].
  exists (n1 ++ [EHttp (GET root_url) (Responds r)]). split.
  - cbn. by rewrite <- !app_assoc.
  - rewrite actions_app, A1, rounds_sleep by lia. done.
Qed.

(** The loop when every request fails. *)
Lemma polling_exhausted (n : nat) (t : trace) :
  (forall t', sleep_refusal pf t' delay = None) ->
  Z.of_nat n = max_retries ->
  (forall j, (j < n)%nat ->
             attempt_fails (env (nreq t + j)%nat (GET root_url)) = true) ->
  exists new,
    for_in (map Z.of_nat (seq 0 n)) (wait_attempt pf env max_retries delay) t = (Ret None, t ++ new)
    /\ actions new = polling n delay.
Proof.
  intros Hd Hn Hf.
  destruct (polling_fails n 0 t Hd Hf) as (new & E & N & A).
  exists new. split; [done|]. rewrite A.
  destruct n as [|m]; [done|].
  rewrite seq_S, map_app, map_app, concat_app, rounds_sleep by lia.
  cbn. unfold failed_round.
  by assert ((Z.of_nat m <? max_retries - 1) = false) as -> by lia.
Qed.

End Prober.

Lemma actions_printed_around (line1 line2 : list frag) (new : trace) :
  actions (EPrint line1 :: new ++ [EPrint line2]) = actions new.
Proof. cbn. rewrite actions_app. cbn. by rewrite app_nil_r. Qed.

Lemma nreq_print (t : trace) (line : list frag) : nreq (t ++ [EPrint line]) = nreq t.
Proof. rewrite nreq_app. cbn. lia. Qed.

Lemma range_split (n : Z) (m : nat) :
  Z.of_nat m <= n - 1 ->
  exists rest, range n = map Z.of_nat (seq 0 m) ++ Z.of_nat m :: rest.
Proof.
  intros H. unfold range.
  replace (Z.to_nat n) with (m + S (Z.to_nat n - S m))%nat by lia.
  rewrite seq_app, map_app. cbn. eauto.
Qed.

(** The least index at which a boolean test over [0 .. n-1] fails. *)
Lemma forallb_seq_first (f : nat -> bool) (n : nat) :
  forallb f (seq 0 n) = false ->
  exists m, (m < n)%nat /\ f m = false /\ forall j, (j < m)%nat -> f j = true.
Proof.
  induction n as [|n IH]; [done|].
  rewrite seq_S, forallb_app. cbn. rewrite andb_true_r.
  destruct (forallb f (seq 0 n)) eqn:Hall; cbn.
  - intros Hn. exists n. split_and!; [lia | done |].
    intros j Hj. rewrite forallb_forall in Hall. apply Hall, in_seq. lia.
  - intros _. destruct IH as (m & Hm & Hfm & Hlt); [done|].
    exists m. split_and!; [lia | done | done].
Qed.

Lemma never_ready_spec (env : nat -> request -> outcome) (n0 attempts : nat) :
  never_ready env n0 attempts = true <->
  forall j, (j < attempts)%nat ->
            attempt_fails (env (n0 + j)%nat (GET root_url)) = true.
Proof.
  unfold never_ready. rewrite forallb_forall. split.
  - intros H j Hj. apply H, in_seq. lia.
  - intros H j Hj. apply H. apply in_seq in Hj. lia.
Qed.

Lemma attempt_succeeds (out : outcome) :
  attempt_fails out = false -> exists r, out = Responds r /\ status_code r = 200.
Proof.
  destruct out as [r|]; cbn; [|done]. intros H%negb_false_iff. exists r. split; [done|lia].
Qed.

(** The prober never raises when the delay is a valid sleep length, and its
    answer is decided by the outcomes of at most [max_retries] requests. *)
Lemma wait_for_qdrant_decides pf env (max_retries delay : Z) (t : trace) :
  (forall t', sleep_refusal pf t' delay = None) ->
  exists new,
    wait_for_qdrant pf env max_retries delay t
    = (Ret (negb (never_ready env (nreq t) (Z.to_nat max_retries))), t ++ new).
Proof.
  intros Hd. unfold wait_for_qdrant, bind, print, emit.
  set (t0 := t ++ [EPrint _]).
  assert (nreq t0 = nreq t) as Ht0 by apply nreq_print.
  destruct (never_ready env (nreq t) (Z.to_nat max_retries)) eqn:Hnr; cbn [negb].
  - destruct (Z_le_gt_dec max_retries 0) as [Hle|Hgt].
    + unfold range. replace (Z.to_nat max_retries) with 0%nat by lia. cbn.
      subst t0. rewrite <- app_assoc. eauto.
    + destruct (polling_exhausted pf env max_retries delay (Z.to_nat max_retries) t0)
        as (new & E & _); [done | lia | |].
      { rewrite Ht0. by apply never_ready_spec. }
      unfold range. rewrite E. cbn. subst t0. rewrite <- !app_assoc. eauto.
  - apply forallb_seq_first in Hnr as (m & Hm & Hfm & Hlt).
    apply attempt_succeeds in Hfm as (r & Henv & Hst).
    destruct (range_split max_retries m) as (rest & ->); [lia|].
    destruct (polling_succeeds pf env max_retries delay m rest t0 r)
      as (new & E & _); [done | lia | | | done |].
    { intros j Hj. rewrite Ht0. by apply Hlt. }
    { by rewrite Ht0. }
    rewrite E. cbn. subst t0. rewrite <- !app_assoc. eauto.
Qed.




(** C7, for the delays [time.sleep] accepts. When the delay is at least 0
    and at every moment within the longest sleep of the platform (as every
    delay of up to 4294967 seconds is), [1 <= k <= max_retries], the first
    [k - 1] liveness attempts fail and attempt [k] is answered with status
    200, [wait_for_qdrant] returns [True] after exactly [k] requests and
    [k - 1] sleeps; the successful request is its last action, followed
    only by the line announcing that the service is ready. *)
Theorem wait_for_qdrant_first_success pf env (max_retries delay : Z) (k : nat)
    (t : trace) (r : response) :
  (forall t', 0 <= delay <= sleep_limit pf t') ->
  (1 <= k)%nat ->
  Z.of_nat k <= max_retries ->
  (forall j, (j < k - 1)%nat ->
             attempt_fails (env (nreq t + j)%nat (GET root_url)) = true) ->
  env (nreq t + (k - 1))%nat (GET root_url) = Responds r ->
  status_code r = 200 ->
  exists new,
    wait_for_qdrant pf env max_retries delay t = (Ret true, t ++ new)
    /\ actions new = polling k delay
    /\ attempts new = replicate k (GET root_url)
    /\ sleeps new = replicate (k - 1) delay
    /\ last new = Some (EPrint [Lit "✓ Qdrant is ready!"]).
Proof.
  intros Hd Hk Hmax Hf Henv Hst. pose proof (sleep_always_accepted pf delay Hd) as Hacc. clear Hd. rename Hacc into Hd.
  destruct k as [|m]; [lia|]. rewrite Nat.sub_succ, Nat.sub_0_r in *.
  unfold wait_for_qdrant, bind, print, emit.
  set (t0 := t ++ [EPrint _]).
  destruct (range_split max_retries m) as (rest & ->); [lia|].
  destruct (polling_succeeds pf env max_retries delay m rest t0 r)
    as (new & E & A); [done | lia | | | done |].
  { intros j Hj. subst t0. rewrite nreq_print. by apply Hf. }
  { subst t0. by rewrite nreq_print. }
  rewrite E. cbn. subst t0. rewrite <- !app_assoc.
  eexists. split; [reflexivity|].
  assert (actions ([EPrint [Lit "Waiting for Qdrant at "; Lit QDRANT_URL; Lit "..."]]
                   ++ new ++ [EPrint [Lit "✓ Qdrant is ready!"]])
          = polling (S m) delay) as Hact
    by (rewrite <- A; apply actions_printed_around).
  split_and!; [done | by apply (polling_attempts (S m) delay) | | ].
  - apply polling_sleeps in Hact. by rewrite Nat.sub_succ, Nat.sub_0_r in Hact.
  - by rewrite app_assoc, last_snoc.
Qed.

Lemma wait_for_qdrant_first_success_witness :
  exists new,
    wait_for_qdrant linux ready_on_third 30 2 [] = (Ret true, [] ++ new)
    /\ actions new = polling 3 2
    /\ attempts new = replicate 3 (GET root_url)
    /\ sleeps new = replicate (3 - 1) 2
    /\ last new = Some (EPrint [Lit "✓ Qdrant is ready!"]).
Proof.
  apply (wait_for_qdrant_first_success linux ready_on_third 30 2 3 [] ok_response).
  - intros t'. unfold sleep_limit, SHORT_SLEEP. lia.
  - lia.
  - lia.
  - intros j Hj. destruct j as [|[|j]]; [reflexivity | reflexivity | cbn in Hj; lia].
  - reflexivity.
  - reflexivity.
Defined.

(** C7 does not extend to every delay: the service would answer the third
    request, but with a delay of [2 ^ 64] seconds the sleep after the first
    failed attempt raises [OverflowError] and the prober never gets there. *)
Lemma wait_for_qdrant_overlong_delay_misses_success :
  wait_for_qdrant linux ready_on_third 30 (2 ^ 64) []
  = (Raise OverflowError,
     [EPrint [Lit "Waiting for Qdrant at "; Lit QDRANT_URL; Lit "..."];
      EHttp (GET root_url) Fails;
      EPrint [Lit "  Connection attempt failed: "; Exn RequestException];
      EPrint [Lit "  Retry "; Int 1; Lit "/"; Int 30; Lit "..."]])
  /\ ready_on_third 2 (GET root_url) = Responds ok_response
  /\ status_code ok_response = 200.
Proof. split_and!; [vm_compute; reflexivity | reflexivity | reflexivity]. Qed.

(** ** The existence checker *)

Lemma collection_exists_run env (name : string) (t : trace) :
  let out := env (nreq t) (GET (collection_url name)) in
  collection_exists env name t
  = (Ret (found out), t ++ [EHttp (GET (collection_url name)) out]).
Proof.
  unfold collection_exists, try_except, bind, requests_get, http.
  by destruct (env (nreq t) (GET (collection_url name))).
Qed.

(** C4. [collection_exists] always returns a boolean, never raises, and the
    boolean is [True] exactly when its one request is answered with status
    200: a transport error and any other status give [False]. *)
Theorem collection_exists_iff_status_200 env (name : string) (t : trace) :
  let out := env (nreq t) (GET (collection_url name)) in
  exists b,
    collection_exists env name t
    = (Ret b, t ++ [EHttp (GET (collection_url name)) out])
    /\ (b = true <-> exists r, out = Responds r /\ status_code r = 200)
    /\ (out = Fails -> b = false)
    /\ (forall r, out = Responds r -> status_code r <> 200 -> b = false).
Proof.
  intros out. exists (found out). split; [apply collection_exists_run|].
  destruct out as [r|]; cbn; split_and!.
  - split; [intros H; exists r; split; [done|lia] | intros (r' & [= <-] & H); lia].
  - done.
  - intros r' [= <-] H. lia.
  - split; [done | by intros (r & H & _)].
  - done.
  - done.
Qed.

(** ** The provisioner *)

Section Provisioner.

Variable env : nat -> request -> outcome.
Variable name : string.

Lemma declared_schema_get (fc : field_config) :
  dict_get fc "type" "keyword" = declared_schema fc.
Proof. unfold dict_get, declared_schema. by destruct (fc !! "type"). Qed.

(** The loop over the payload schema: it stops at the first index request
    that raises, and only then. *)
Lemma index_loop (fields : list (string * field_config)) : forall t : trace,
  exists new processed rest,
    fields = processed ++ rest
    /\ index_requests new = map field_index processed
    /\ creation_succeeded name new = false
    /\ ((for_each fields (create_index env name) t = (Ret tt, t ++ new)
         /\ index_raised new = false /\ rest = [])
        \/ (for_each fields (create_index env name) t
            = (Raise RequestException, t ++ new)
            /\ index_raised new = true)).
Proof.
  induction fields as [|[field_name fc] fields IH]; intros t.
  - exists [], [], []. cbn. unfold ret. rewrite app_nil_r. split_and!; eauto.
  - set (req := PUT (index_url name) (IndexBody field_name (declared_schema fc))).
    destruct (env (nreq t) req) as [r|] eqn:Henv.
    + set (ev := EHttp req (Responds r)).
      assert (exists pl,
                for_each ((field_name, fc) :: fields) (create_index env name) t
                = for_each fields (create_index env name) (t ++ ev :: pl)
                /\ index_requests pl = []
                /\ creation_succeeded name pl = false
                /\ index_raised pl = false) as (pl & -> & P1 & P2 & P3).
      { cbn [for_each].
        unfold bind, create_index, bind, requests_put, http, index_payload.
        rewrite declared_schema_get. fold req. rewrite Henv. fold ev.
        destruct (created_status (status_code r)); cbn; unfold print, emit, ret;
          [eexists [_] | exists []]; rewrite <- ?app_assoc;
          (split; [reflexivity | done]). }
      destruct (IH (t ++ ev :: pl)) as (new & processed & rest & -> & I & C & H).
      exists ([ev] ++ pl ++ new), ((field_name, fc) :: processed), rest.
      unfold index_requests, creation_succeeded, index_raised in *.
      rewrite !omap_app, !existsb_app, P1, P2, P3, I, C.
      rewrite <- app_assoc in H. cbn [app] in H.
      split_and!; [done | done | done |].
      destruct H as [(-> & -> & ->)|(-> & ->)]; [left|right]; done.
    + exists [EHttp req Fails], [(field_name, fc)], fields.
      split_and!; [done | | done |].
      * cbn. unfold field_index. done.
      * right. split; [|done]. cbn [for_each].
        unfold bind, create_index, bind, requests_put, http, index_payload.
        rewrite declared_schema_get. fold req. by rewrite Henv.
Qed.

Lemma observe_app (t u : trace) :
  index_requests (t ++ u) = index_requests t ++ index_requests u
  /\ creation_succeeded name (t ++ u)
     = creation_succeeded name t || creation_succeeded name u
  /\ index_raised (t ++ u) = index_raised t || index_raised u.
Proof.
  unfold index_requests, creation_succeeded, index_raised.
  by rewrite omap_app, !existsb_app.
Qed.

(** Every run of the provisioner: it returns a boolean, its index requests
    are those of a prefix of the payload schema, and after a successful
    creation only an index request that raises makes it return [False]. *)
Lemma create_collection_run (cfg : collection_config) (t : trace) :
  exists b new processed rest,
    create_collection env name cfg t = (Ret b, t ++ new)
    /\ default [] (payload_schema cfg) = processed ++ rest
    /\ index_requests new = map field_index processed
    /\ (creation_succeeded name new = true -> index_raised new = false ->
        b = true /\ rest = []).
Proof.
  unfold create_collection, bind at 1. rewrite collection_exists_run.
  set (ev0 := EHttp (GET (collection_url name)) _).
  destruct (found _).
  { exists true, [ev0; EPrint [Lit "  → Collection '"; Lit name;
                               Lit "' already exists, skipping..."]],
      [], (default [] (payload_schema cfg)).
    cbn. rewrite <- app_assoc. done. }
  unfold try_except, bind at 1.
  destruct (vectors cfg) as [vs|].
  2:{ exists false, [ev0; EPrint [Lit "  ✗ Error creating collection '"; Lit name;
                                  Lit "': "; Exn (KeyError "vectors")]],
        [], (default [] (payload_schema cfg)).
      cbn. rewrite <- app_assoc. done. }
  unfold ret at 1, bind at 1, requests_put, http.
  set (req := PUT (collection_url name) (CreateBody vs)).
  destruct (env (nreq (t ++ [ev0])) req) as [r|].
  2:{ exists false, [ev0; EHttp req Fails;
                     EPrint [Lit "  ✗ Error creating collection '"; Lit name;
                             Lit "': "; Exn RequestException]],
        [], (default [] (payload_schema cfg)).
      cbn. rewrite <- !app_assoc. done. }
  set (ev1 := EHttp req (Responds r)).
  destruct (created_status (status_code r)) eqn:Hst.
  2:{ exists false, [ev0; ev1;
                     EPrint [Lit "  ✗ Failed to create collection '"; Lit name;
                             Lit "': "; Lit (text r)]],
        [], (default [] (payload_schema cfg)).
      cbn. rewrite <- !app_assoc, Hst, andb_false_r. split_and!; done. }
  unfold bind at 1, print at 1, emit. rewrite <- !app_assoc. cbn [app].
  set (ev2 := EPrint _). unfold bind at 1.
  destruct (payload_schema cfg) as [fields|]; cbn [default from_option id].
  2:{ exists true, [ev0; ev1; ev2], [], []. done. }
  destruct (index_loop fields (t ++ [ev0; ev1; ev2]))
    as (new & processed & rest & -> & I & C & [(-> & R & ->)|(-> & R)]).
  - exists true, ([ev0; ev1; ev2] ++ new), processed, [].
    rewrite <- app_assoc. split_and!; done.
  - exists false, ([ev0; ev1; ev2] ++ new
                   ++ [EPrint [Lit "  ✗ Error creating collection '"; Lit name;
                               Lit "': "; Exn RequestException]]),
      processed, rest.
    cbn [is_Exception]. unfold bind, print, emit, ret.
    rewrite <- !app_assoc. split_and!; try done.
    + destruct (observe_app [ev0; ev1; ev2] (new ++ [EPrint
          [Lit "  ✗ Error creating collection '"; Lit name;
           Lit "': "; Exn RequestException]])) as (-> & _).
      destruct (observe_app new [EPrint
          [Lit "  ✗ Error creating collection '"; Lit name;
           Lit "': "; Exn RequestException]]) as (-> & _).
      cbn. by rewrite app_nil_r.
    + intros _ Hno. exfalso.
      destruct (observe_app [ev0; ev1; ev2] (new ++ [EPrint
          [Lit "  ✗ Error creating collection '"; Lit name;
           Lit "': "; Exn RequestException]])) as (_ & _ & E1).
      destruct (observe_app new [EPrint
          [Lit "  ✗ Error creating collection '"; Lit name;
           Lit "': "; Exn RequestException]]) as (_ & _ & E2).
      rewrite E1, E2, R in Hno. cbn in Hno. done.
Qed.

End Provisioner.

(** C1, for index requests that return a response. When the creation request of [create_collection] is
    answered with status 200 or 201 and every index request it issues
    returns a response, whatever the status, the result is [True] and every
    field of the payload schema has had its index request: an index request
    refused by the server neither changes the result nor stops the loop. *)
Theorem create_collection_ignores_index_status env (name : string)
    (cfg : collection_config) (t new : trace) (res : result bool) :
  create_collection env name cfg t = (res, t ++ new) ->
  creation_succeeded name new = true ->
  index_raised new = false ->
  res = Ret true
  /\ index_requests new = map field_index (default [] (payload_schema cfg)).
Proof.
  intros Hrun Hcreated Hraised.
  destruct (create_collection_run env name cfg t)
    as (b & new' & processed & rest & E & Hfields & Hreqs & Hres).
  rewrite E in Hrun. injection Hrun as <- ->%app_inv_head.
  destruct (Hres Hcreated Hraised) as [-> ->].
  rewrite app_nil_r in Hfields. by rewrite Hfields.
Qed.

Lemma create_collection_ignores_index_status_witness :
  fst (create_collection refuses_indexes "documents" sample_config []) = Ret true
  /\ index_requests (snd (create_collection refuses_indexes "documents" sample_config []))
     = [("title", "text"); ("owner", "keyword")].
Proof.
  destruct (create_collection_ignores_index_status
              refuses_indexes "documents" sample_config []
              (snd (create_collection refuses_indexes "documents" sample_config []))
              (fst (create_collection refuses_indexes "documents" sample_config [])))
    as [Hres Hreqs].
  - vm_compute. reflexivity.
  - vm_compute. reflexivity.
  - vm_compute. reflexivity.
  - split; [exact Hres | rewrite Hreqs; vm_compute; reflexivity].
Defined.

(** C1 does not extend to an index request that raises: here the creation
    request succeeds, the connection breaks during the first index request,
    and the provisioner returns [False] without trying the remaining field. *)
Lemma create_collection_index_error_returns_false :
  exists new,
    create_collection drops_on_index "documents" sample_config [] = (Ret false, new)
    /\ creation_succeeded "documents" new = true
    /\ index_raised new = true
    /\ index_requests new = [("title", "text")].
Proof. eexists. split_and!; vm_compute; reflexivity. Qed.

(** C2. When the existence checker reports the collection present,
    [create_collection] returns [True] having made the existence request
    and printed one line: it issues no PUT request at all, neither the
    creation request nor an index request. *)
Theorem create_collection_skips_existing env (name : string)
    (cfg : collection_config) (t : trace) :
  fst (collection_exists env name t) = Ret true ->
  create_collection env name cfg t
  = (Ret true,
     t ++ [EHttp (GET (collection_url name)) (env (nreq t) (GET (collection_url name)));
           EPrint [Lit "  → Collection '"; Lit name;
                   Lit "' already exists, skipping..."]])
  /\ put_requests (snd (create_collection env name cfg t)) = put_requests t.
Proof.
  rewrite collection_exists_run. cbn [fst]. intros [= Hfound].
  assert (create_collection env name cfg t
          = (Ret true,
             t ++ [EHttp (GET (collection_url name))
                         (env (nreq t) (GET (collection_url name)));
                   EPrint [Lit "  → Collection '"; Lit name;
                           Lit "' already exists, skipping..."]])) as ->.
  { unfold create_collection, bind at 1. rewrite collection_exists_run, Hfound.
    cbn. by rewrite <- app_assoc. }
  split; [done|]. cbn [snd]. unfold put_requests. rewrite omap_app. cbn.
  by rewrite app_nil_r.
Qed.

Lemma create_collection_skips_existing_witness :
  create_collection always_200 "documents" sample_config []
  = (Ret true,
     [] ++ [EHttp (GET (collection_url "documents"))
                  (always_200 (nreq []) (GET (collection_url "documents")));
            EPrint [Lit "  → Collection '"; Lit "documents";
                    Lit "' already exists, skipping..."]])
  /\ put_requests (snd (create_collection always_200 "documents" sample_config []))
     = put_requests [].
Proof.
  apply (create_collection_skips_existing always_200 "documents" sample_config []).
  vm_compute. reflexivity.
Defined.

(** C10. The index requests of [create_collection] are those of the fields
    of the payload schema it has processed, in order, and the [field_schema]
    of each is the ["type"] entry of the field configuration when it has
    one and ["keyword"] when it has none. *)
Theorem index_request_schema env (name : string) (cfg : collection_config)
    (t new : trace) (res : result bool) :
  create_collection env name cfg t = (res, t ++ new) ->
  exists processed rest,
    default [] (payload_schema cfg) = processed ++ rest
    /\ index_requests new
       = map (fun field : string * field_config =>
                (fst field,
                 match snd field !! "type" with
                 | Some ty => ty
                 | None => "keyword"
                 end)) processed
    /\ (creation_succeeded name new = true -> index_raised new = false -> rest = []).
Proof.
  intros Hrun.
  destruct (create_collection_run env name cfg t)
    as (b & new' & processed & rest & E & Hfields & Hreqs & Hres).
  rewrite E in Hrun. injection Hrun as <- ->%app_inv_head.
  exists processed, rest. split_and!; [done | done |].
  intros Hc Hr. by destruct (Hres Hc Hr).
Qed.

Lemma index_request_schema_witness :
  exists processed rest,
    default [] (payload_schema sample_config) = processed ++ rest
    /\ index_requests (snd (create_collection refuses_indexes "documents" sample_config []))
       = map (fun field : string * field_config =>
                (fst field,
                 match snd field !! "type" with
                 | Some ty => ty
                 | None => "keyword"
                 end)) processed
    /\ (creation_succeeded "documents"
          (snd (create_collection refuses_indexes "documents" sample_config [])) = true ->
        index_raised
          (snd (create_collection refuses_indexes "documents" sample_config [])) = false ->
        rest = []).
Proof.
  apply (index_request_schema refuses_indexes "documents" sample_config []
           (snd (create_collection refuses_indexes "documents" sample_config []))
           (fst (create_collection refuses_indexes "documents" sample_config []))).
  vm_compute. reflexivity.
Defined.

(** ** Exceptions and their handlers *)

Section Raising.

Variable P : exn -> bool.

Lemma raises_only_ret {A} (a : A) : raises_only P (ret a).
Proof. by intros t. Qed.

Lemma raises_only_emit (ev : event) : raises_only P (emit ev).
Proof. by intros t. Qed.

Lemma raises_only_bind {A B} (m : M A) (k : A -> M B) :
  raises_only P m -> (forall a, raises_only P (k a)) -> raises_only P (bind m k).
Proof.
  intros Hm Hk t. unfold bind. specialize (Hm t).
  destruct (m t) as [[a|e] t']; cbn in *; [apply Hk | done].
Qed.

Lemma raises_only_for_each {A} (xs : list A) (body : A -> M unit) :
  (forall x, raises_only P (body x)) -> raises_only P (for_each xs body).
Proof.
  intros Hbody. induction xs as [|x xs IH]; cbn [for_each].
  - apply raises_only_ret.
  - by apply raises_only_bind.
Qed.

Lemma raises_only_http env (req : request) :
  P RequestException = true -> raises_only P (http env req).
Proof. intros H t. unfold http. by destruct (env (nreq t) req). Qed.

(** A handler for the whole class turns the block into one that returns. *)
Lemma try_except_returns {A} (m : M A) (catches : exn -> bool) (handler : exn -> M A) :
  raises_only P m ->
  (forall e, P e = true -> catches e = true) ->
  (forall e, returns (handler e)) ->
  returns (try_except m catches handler).
Proof.
  intros Hm Hc Hh t. unfold try_except. specialize (Hm t).
  destruct (m t) as [[a|e] t']; cbn in Hm; [eauto|].
  rewrite (Hc e Hm). apply Hh.
Qed.

End Raising.

Lemma returns_ret {A} (a : A) : returns (ret a).
Proof. intros t. by exists a, t. Qed.

Lemma returns_print (line : list frag) : returns (print line).
Proof. intros t. by eexists _, _. Qed.

Lemma returns_bind {A B} (m : M A) (k : A -> M B) :
  returns m -> (forall a, returns (k a)) -> returns (bind m k).
Proof.
  intros Hm Hk t. unfold bind. destruct (Hm t) as (a & t' & ->). apply Hk.
Qed.

Lemma returns_for_fold {A S} (xs : list A) (body : A -> S -> M S) :
  (forall x acc, returns (body x acc)) -> forall acc, returns (for_fold xs acc body).
Proof.
  intros Hbody. induction xs as [|x xs IH]; intros acc; cbn [for_fold].
  - apply returns_ret.
  - by apply returns_bind.
Qed.

(** The operations on decoded JSON raise ordinary exceptions only. *)
Lemma raises_only_response_json (r : response) :
  raises_only is_Exception (response_json r).
Proof. intros t. unfold response_json. by destruct (body r). Qed.

Lemma raises_only_json_get (v : json) (key : string) (dflt : json) :
  raises_only is_Exception (json_get v key dflt).
Proof. intros t. destruct v; cbn; try done. by destruct (assoc key fields). Qed.

Lemma raises_only_json_iter (v : json) : raises_only is_Exception (json_iter v).
Proof. intros t. by destruct v. Qed.

Lemma raises_only_json_index (v : json) (key : string) :
  raises_only is_Exception (json_index v key).
Proof. intros t. destruct v; cbn; try done. by destruct (assoc key fields). Qed.

Lemma raises_only_weaken (P : exn -> bool) {A} (m : M A) :
  raises_only P m -> raises_only any_exception m.
Proof. intros H t. specialize (H t). by destruct (fst (m t)). Qed.

(** ** The inventory reporter and the version banner *)

Section Reporting.

Variable env : nat -> request -> outcome.

Lemma list_collections_returns : returns (list_collections env).
Proof.
  unfold list_collections.
  apply (try_except_returns is_Exception); [|done|intros e; apply returns_print].
  apply raises_only_bind; [by apply raises_only_http|]. intros response.
  destruct (status_code response =? 200); [|apply raises_only_ret].
  apply raises_only_bind; [apply raises_only_response_json|]. intros data.
  apply raises_only_bind; [apply raises_only_json_get|]. intros res.
  apply raises_only_bind; [apply raises_only_json_get|]. intros collections.
  destruct (truthy collections); [|apply raises_only_emit].
  apply raises_only_bind; [apply raises_only_emit|]. intros _.
  apply raises_only_bind; [apply raises_only_json_iter|]. intros cols.
  apply raises_only_for_each. intros col. unfold print_collection.
  apply raises_only_bind; [apply raises_only_json_index|]. intros nm.
  apply raises_only_emit.
Qed.

Lemma print_version_returns : returns (print_version env).
Proof.
  unfold print_version.
  apply (try_except_returns any_exception); [|done|intros e; apply returns_ret].
  apply (raises_only_weaken is_Exception).
  apply raises_only_bind; [by apply raises_only_http|]. intros response.
  destruct (status_code response =? 200); [|apply raises_only_ret].
  apply raises_only_bind; [apply raises_only_response_json|]. intros info.
  apply raises_only_bind; [apply raises_only_json_get|]. intros version.
  apply raises_only_emit.
Qed.

Lemma create_collection_returns (name : string) (cfg : collection_config) :
  returns (create_collection env name cfg).
Proof.
  intros t. destruct (create_collection_run env name cfg t) as (b & new & _ & _ & E & _).
  eauto.
Qed.

End Reporting.

(** ** The orchestrator *)

Section Orchestrator.

Variable env : nat -> request -> outcome.

Lemma count_true_cons (b : bool) (bs : list bool) :
  count_true (b :: bs) = (if b then 1 else 0) + count_true bs.
Proof. unfold count_true. destruct b; cbn [List.filter length]; lia. Qed.

(** The counter of the loop against the results of the same calls. *)
Lemma count_created_results (table : list (string * collection_config)) :
  forall (acc : Z) (t : trace),
  exists results t',
    map_m (provision_item env) table t = (Ret results, t')
    /\ length results = length table
    /\ for_fold table acc (tally env) t = (Ret (acc + count_true results), t').
Proof.
  induction table as [|[name cfg] table IH]; intros acc t.
  - exists [], t. cbn. unfold ret. split_and!; [done | done |].
    f_equal. f_equal. unfold count_true. cbn. lia.
  - destruct (create_collection_returns env name cfg t) as (b & t1 & E).
    destruct (IH (if b then acc + 1 else acc) t1) as (results & t' & Em & Hlen & Ef).
    exists (b :: results), t'. cbn [map_m for_fold]. split_and!.
    + rewrite (bind_run _ _ t t1 b) by exact E.
      by rewrite (bind_run _ _ t1 t' results) by exact Em.
    + cbn. by rewrite Hlen.
    + rewrite (bind_run _ _ t t1 (if b then acc + 1 else acc)).
      * rewrite Ef, count_true_cons. do 2 f_equal. destruct b; lia.
      * unfold tally. rewrite (bind_run _ _ t t1 b) by exact E. by destruct b.
Qed.

End Orchestrator.

(** C8. After the loop over a table of [N] specifications the success
    counter is the number [M] of calls of [create_collection] that returned
    [True], and the next line printed is the summary, which reads
    [Created M/N collections successfully] after a blank line. *)
Theorem provision_counts_successes env (table : list (string * collection_config))
    (t : trace) :
  let start := t ++ [EPrint [Lit nl; Lit "Creating collections..."]] in
  exists results t',
    map_m (provision_item env) table start = (Ret results, t')
    /\ length results = length table
    /\ count_created env table start = (Ret (count_true results), t')
    /\ provision env table t
       = (Ret tt,
          t' ++ [EPrint (summary_line (count_true results) (Z.of_nat (length table)))])
    /\ line_text (summary_line (count_true results) (Z.of_nat (length table)))
       = Some (nl +:+ "Created " +:+ pretty (count_true results) +:+ "/"
               +:+ pretty (Z.of_nat (length table)) +:+ " collections successfully").
Proof.
  intros start.
  destruct (count_created_results env table 0 start) as (results & t' & Em & Hlen & Ef).
  rewrite Z.add_0_l in Ef.
  exists results, t'. split_and!; [done | done | done | | reflexivity].
  unfold provision, bind at 1, print at 1, emit. fold start.
  unfold bind, count_created. by rewrite Ef.
Qed.

Lemma bind_raise {A B} (m : M A) (k : A -> M B) (t t' : trace) (e : exn) :
  m t = (Raise e, t') -> bind m k t = (Raise e, t').
Proof. intros H. unfold bind. by rewrite H. Qed.

Lemma provision_returns env (table : list (string * collection_config)) :
  returns (provision env table).
Proof.
  unfold provision.
  apply returns_bind; [apply returns_print|]. intros _.
  apply returns_bind; [|intros n; apply returns_print].
  apply returns_for_fold. intros [name cfg] acc.
  apply returns_bind; [apply create_collection_returns|].
  intros []; apply returns_ret.
Qed.

(** [main] ends in one of two ways, decided by the first thirty requests. *)
Lemma main_run pf env (t : trace) :
  exists t',
    main pf env t
    = (if never_ready env (nreq t) 30 then Raise (SystemExit 1) else Ret tt, t').
Proof.
  unfold main.
  do 3 (erewrite bind_run by reflexivity).
  destruct (wait_for_qdrant_decides pf env 30 2
              (((t ++ [EPrint [Lit rule]])
                ++ [EPrint [Lit "Qdrant Collection Initializer"]])
               ++ [EPrint [Lit rule]])) as (new & E); [apply sleep_two|].
  rewrite !nreq_print in E. change (Z.to_nat 30) with 30%nat in E.
  erewrite bind_run by exact E.
  destruct (never_ready env (nreq t) 30); cbn [negb].
  - erewrite bind_raise; [eauto|].
    erewrite bind_run by reflexivity. reflexivity.
  - match goal with
    | |- exists t', ?m ?s = _ => assert (returns m) as Hret
    end.
    { apply returns_bind; [apply returns_ret|]. intros _.
      apply returns_bind; [apply print_version_returns|]. intros _.
      apply returns_bind; [apply provision_returns|]. intros _.
      apply returns_bind; [apply list_collections_returns|]. intros _.
      do 3 (apply returns_bind; [apply returns_print|]; intros _).
      apply returns_print. }
    destruct (Hret (((((t ++ [EPrint [Lit rule]])
                ++ [EPrint [Lit "Qdrant Collection Initializer"]])
               ++ [EPrint [Lit rule]]) ++ new))) as ([] & t' & ->). eauto.
Qed.

(** C3. The exit status of the script is 1 when [wait_for_qdrant] returns
    [False], that is when each of its thirty liveness requests fails, and 0
    otherwise: [main] then returns normally whatever the provisioning calls
    and the inventory report do, and no other exception leaves it. *)
Theorem main_exit_status pf env :
  let exhausted := never_ready env 0 30 in
  (exhausted = true <-> fst (wait_for_qdrant pf env 30 2 banner) = Ret false)
  /\ fst (main pf env []) = (if exhausted then Raise (SystemExit 1) else Ret tt)
  /\ fst (run pf env) = (if exhausted then 1 else 0).
Proof.
  intros exhausted.
  destruct (main_run pf env []) as (t' & E). change (nreq []) with 0%nat in E.
  fold exhausted in E.
  destruct (wait_for_qdrant_decides pf env 30 2 banner) as (new & W);
    [apply sleep_two|].
  change (never_ready env (nreq banner) (Z.to_nat 30)) with exhausted in W.
  split_and!.
  - rewrite W. cbn [fst]. destruct exhausted; cbn; split; congruence.
  - by rewrite E.
  - unfold run. rewrite E. by destruct exhausted.
Qed.

(** ** The configuration table *)

(** C9. [COLLECTIONS] holds four specifications: documents (1536),
    chat_history (768), code_snippets (768) and knowledge_base (1024), all
    with distance Cosine, with 5, 5, 5 and 6 payload fields. Their names are
    pairwise distinct, every vector size is positive and no payload field
    has an empty name. *)
Theorem COLLECTIONS_well_formed :
  map (fun item => (fst item, vectors (snd item), length <$> payload_schema (snd item)))
      COLLECTIONS
  = [ ("documents", Some (Vectors 1536 "Cosine"), Some 5%nat);
      ("chat_history", Some (Vectors 768 "Cosine"), Some 5%nat);
      ("code_snippets", Some (Vectors 768 "Cosine"), Some 5%nat);
      ("knowledge_base", Some (Vectors 1024 "Cosine"), Some 6%nat) ]
  /\ NoDup (map fst COLLECTIONS)
  /\ Forall (fun item => exists v, vectors (snd item) = Some v /\ 0 < vec_size v)
            COLLECTIONS
  /\ Forall (fun item =>
               Forall (fun field : string * field_config => fst field <> EmptyString)
                      (default [] (payload_schema (snd item))))
            COLLECTIONS.
Proof.
  split_and!.
  - reflexivity.
  - apply (bool_decide_unpack _). vm_compute. exact I.
  - unfold COLLECTIONS. repeat apply Forall_cons_2; try apply Forall_nil_2;
      eexists; (split; [reflexivity | cbn; lia]).
  - unfold COLLECTIONS.
    repeat (apply Forall_cons_2; [cbn; repeat constructor; discriminate|]).
    apply Forall_nil_2.
Qed.

(** * Further properties of the script *)

(** ** Observations distribute over histories *)

Lemma attempts_app (t u : trace) : attempts (t ++ u) = attempts t ++ attempts u.
Proof. unfold attempts. by rewrite actions_app, omap_app. Qed.

Lemma sleeps_app (t u : trace) : sleeps (t ++ u) = sleeps t ++ sleeps u.
Proof. unfold sleeps. by rewrite actions_app, omap_app. Qed.

Lemma gets_app (t u : trace) : gets (t ++ u) = gets t ++ gets u.
Proof. unfold gets. by rewrite attempts_app, omap_app. Qed.

Lemma put_requests_app (t u : trace) :
  put_requests (t ++ u) = put_requests t ++ put_requests u.
Proof. apply omap_app. Qed.

Lemma connection_failures_app (t u : trace) :
  connection_failures (t ++ u) = (connection_failures t + connection_failures u)%nat.
Proof. unfold connection_failures. by rewrite List.filter_app, length_app. Qed.

Lemma attempts_length (t : trace) : length (attempts t) = nreq t.
Proof.
  unfold attempts, actions, nreq.
  induction t as [|[req out|secs|line] t IH]; cbn; [done| |done|done].
  by rewrite IH.
Qed.

(** The writes of a history are the PUT requests among its requests. *)
Lemma put_requests_attempts (t : trace) : put_requests t = puts_of (attempts t).
Proof.
  unfold put_requests, puts_of, attempts, actions.
  induction t as [|[[url|url data] out|secs|line] t IH]; cbn; [done|done| |done|done].
  by rewrite IH.
Qed.

Lemma puts_of_gets (k : nat) (url : string) : puts_of (replicate k (GET url)) = [].
Proof. induction k as [|k IH]; [done|]. cbn. apply IH. Qed.

Lemma gets_of_printed (lines : list (list frag)) :
  attempts (map EPrint lines) = [].
Proof. induction lines as [|line lines IH]; [done|]. cbn. apply IH. Qed.

Lemma sleeps_printed (lines : list (list frag)) : sleeps (map EPrint lines) = [].
Proof. induction lines as [|line lines IH]; [done|]. cbn. apply IH. Qed.

(** ** More on the availability prober *)

(** Every run of the prober with a valid delay. *)
Lemma wait_for_qdrant_run pf env (max_retries delay : Z) (t : trace) :
  (forall t', sleep_refusal pf t' delay = None) ->
  exists b new k,
    wait_for_qdrant pf env max_retries delay t = (Ret b, t ++ new)
    /\ (k <= Z.to_nat max_retries)%nat
    /\ actions new = polling k delay
    /\ b = negb (never_ready env (nreq t) (Z.to_nat max_retries))
    /\ (b = false -> k = Z.to_nat max_retries)
    /\ (b = true ->
        (1 <= k)%nat
        /\ attempt_fails (env (nreq t + (k - 1))%nat (GET root_url)) = false).
Proof.
  intros Hd. unfold wait_for_qdrant, bind, print, emit.
  set (t0 := t ++ [EPrint _]).
  assert (nreq t0 = nreq t) as Ht0 by apply nreq_print.
  destruct (never_ready env (nreq t) (Z.to_nat max_retries)) eqn:Hnr; cbn [negb].
  - destruct (Z_le_gt_dec max_retries 0) as [Hle|Hgt].
    + unfold range. replace (Z.to_nat max_retries) with 0%nat by lia. cbn.
      subst t0. rewrite <- app_assoc. eexists false, _, 0%nat.
      split_and!; [reflexivity | lia | done | done | done | done].
    + destruct (polling_exhausted pf env max_retries delay (Z.to_nat max_retries) t0)
        as (new & E & A); [done | lia | |].
      { rewrite Ht0. by apply never_ready_spec. }
      unfold range. rewrite E. cbn. subst t0. rewrite <- !app_assoc.
      eexists false, _, (Z.to_nat max_retries).
      split_and!; [reflexivity | lia | | done | done | done].
      rewrite <- A. apply actions_printed_around.
  - apply forallb_seq_first in Hnr as (m & Hm & Hfm & Hlt).
    pose proof Hfm as Hok. apply attempt_succeeds in Hfm as (r & Henv & Hst).
    destruct (range_split max_retries m) as (rest & ->); [lia|].
    destruct (polling_succeeds pf env max_retries delay m rest t0 r)
      as (new & E & A); [done | lia | | | done |].
    { intros j Hj. rewrite Ht0. by apply Hlt. }
    { by rewrite Ht0. }
    rewrite E. cbn. subst t0. rewrite <- !app_assoc.
    eexists true, _, (S m).
    split_and!; [reflexivity | lia | | done | done |].
    + rewrite <- A. apply actions_printed_around.
    + intros _. split; [lia|]. by rewrite Nat.sub_succ, Nat.sub_0_r.
Qed.

(** X1. With a delay that is at least 0 and at every moment within the
    longest sleep of the platform, and any server, [wait_for_qdrant] returns
    a boolean after [k] requests, [k] at most [max_retries], all of them GET
    requests of the root address, with exactly [k - 1] sleeps of [delay]
    between them; it writes nothing, and it returns [False] only when the
    whole budget is spent. *)
Theorem wait_for_qdrant_schedule pf env (max_retries delay : Z) (t : trace) :
  (forall t', 0 <= delay <= sleep_limit pf t') ->
  exists b new k,
    wait_for_qdrant pf env max_retries delay t = (Ret b, t ++ new)
    /\ (k <= Z.to_nat max_retries)%nat
    /\ actions new = polling k delay
    /\ attempts new = replicate k (GET root_url)
    /\ sleeps new = replicate (k - 1) delay
    /\ put_requests new = []
    /\ (b = false -> k = Z.to_nat max_retries)
    /\ (b = true -> (1 <= k)%nat).
Proof.
  intros Hd. pose proof (sleep_always_accepted pf delay Hd) as Hacc. clear Hd. rename Hacc into Hd.
  destruct (wait_for_qdrant_run pf env max_retries delay t Hd)
    as (b & new & k & E & Hk & A & _ & Hf & Ht).
  exists b, new, k.
  pose proof (polling_attempts k delay new A) as Hatt.
  split_and!; [done | done | done | done | by apply polling_sleeps | | done |].
  - by rewrite put_requests_attempts, Hatt, puts_of_gets.
  - intros Hb. by destruct (Ht Hb).
Qed.

Lemma wait_for_qdrant_schedule_witness :
  exists b new k,
    wait_for_qdrant linux ready_on_third 30 2 [] = (Ret b, [] ++ new)
    /\ (k <= Z.to_nat 30)%nat
    /\ actions new = polling k 2
    /\ attempts new = replicate k (GET root_url)
    /\ sleeps new = replicate (k - 1) 2
    /\ put_requests new = []
    /\ (b = false -> k = Z.to_nat 30)
    /\ (b = true -> (1 <= k)%nat).
Proof.
  apply (wait_for_qdrant_schedule linux ready_on_third 30 2 []).
  intros t'. unfold sleep_limit, SHORT_SLEEP. lia.
Defined.

(** X2. A budget of zero or less: [wait_for_qdrant] reports the service
    unavailable at once, without a request and without a sleep. *)
Theorem wait_for_qdrant_no_budget pf env (max_retries delay : Z) (t : trace) :
  max_retries <= 0 ->
  wait_for_qdrant pf env max_retries delay t
  = (Ret false,
     t ++ [EPrint [Lit "Waiting for Qdrant at "; Lit QDRANT_URL; Lit "..."];
           EPrint [Lit "✗ Qdrant is not available after maximum retries"]]).
Proof.
  intros H. unfold wait_for_qdrant, bind, print, emit, range.
  replace (Z.to_nat max_retries) with 0%nat by lia. cbn.
  by rewrite <- app_assoc.
Qed.

Lemma wait_for_qdrant_no_budget_witness :
  wait_for_qdrant linux always_200 0 2 []
  = (Ret false,
     [] ++ [EPrint [Lit "Waiting for Qdrant at "; Lit QDRANT_URL; Lit "..."];
            EPrint [Lit "✗ Qdrant is not available after maximum retries"]]).
Proof. apply (wait_for_qdrant_no_budget linux always_200 0 2 []). lia. Defined.



Section FirstFailure.

Variable pf : platform.
Variable env : nat -> request -> outcome.
Variables max_retries delay : Z.

(** One iteration prints the connection-failure line only at index 0, and
    only for a transport error. *)
Lemma wait_attempt_connection_failures (i : Z) (t : trace) :
  exists r new,
    wait_attempt pf env max_retries delay i t = (r, t ++ new)
    /\ connection_failures new
       = if i =? 0
         then match env (nreq t) (GET root_url) with
              | Fails => 1%nat
              | Responds _ => 0%nat
              end
         else 0%nat.
Proof.
  unfold wait_attempt, bind, try_except, requests_get, http, sleep.
  destruct (env (nreq t) (GET root_url)) as [r|];
    [destruct (status_code r =? 200)|];
    destruct (i =? 0), (i <? max_retries - 1); cbn;
    try match goal with
        | |- context [sleep_refusal pf ?t' delay] =>
            destruct (sleep_refusal pf t' delay)
        end; cbn;
    rewrite <- ?app_assoc; eexists _, _; (split; [reflexivity|done]).
Qed.

Lemma later_attempts_silent (k : nat) : forall (a : nat) (t : trace),
  (1 <= a)%nat ->
  exists r new,
    for_in (map Z.of_nat (seq a k)) (wait_attempt pf env max_retries delay) t
    = (r, t ++ new)
    /\ connection_failures new = 0%nat.
Proof.
  induction k as [|k IH]; intros a t Ha.
  - exists (Ret None), []. cbn. unfold ret. by rewrite app_nil_r.
  - cbn [seq map for_in].
    destruct (wait_attempt_connection_failures (Z.of_nat a) t) as (r1 & n1 & E1 & C1).
    assert ((Z.of_nat a =? 0) = false) as Hne by lia. rewrite Hne in C1.
    unfold bind. rewrite E1. destruct r1 as [[b|]|e].
    + exists (Ret (Some b)), n1. by unfold ret.
    + destruct (IH (S a) (t ++ n1)) as (r2 & n2 & E2 & C2); [lia|].
      exists r2, (n1 ++ n2). rewrite E2, app_assoc. split; [done|].
      rewrite connection_failures_app. lia.
    + by exists (Raise e), n1.
Qed.

End FirstFailure.

(** X4. The line reporting a failed connection is printed at most once per
    call of [wait_for_qdrant]: once when the budget is positive and the
    first request ends in a transport error, and never for a later attempt
    or for a response with a bad status. *)
Theorem wait_for_qdrant_reports_first_failure_only pf env (max_retries delay : Z)
    (t new : trace) (res : result bool) :
  wait_for_qdrant pf env max_retries delay t = (res, t ++ new) ->
  connection_failures new
  = match env (nreq t) (GET root_url) with
    | Fails => if 0 <? max_retries then 1%nat else 0%nat
    | Responds _ => 0%nat
    end.
Proof.
  intros Hrun.
  assert (exists res' new',
            wait_for_qdrant pf env max_retries delay t = (res', t ++ new')
            /\ connection_failures new'
               = match env (nreq t) (GET root_url) with
                 | Fails => if 0 <? max_retries then 1%nat else 0%nat
                 | Responds _ => 0%nat
                 end) as (res' & new' & E & C).
  { unfold wait_for_qdrant, bind at 1, print at 1, emit.
    set (t0 := t ++ [EPrint _]).
    destruct (Z_le_gt_dec max_retries 0) as [Hle|Hgt].
    - unfold range. replace (Z.to_nat max_retries) with 0%nat by lia. cbn.
      subst t0. rewrite <- app_assoc. eexists _, _. split; [reflexivity|].
      assert ((0 <? max_retries) = false) as -> by lia.
      by destruct (env (nreq t) (GET root_url)).
    - assert ((0 <? max_retries) = true) as -> by lia.
      unfold range.
      replace (Z.to_nat max_retries) with (S (Z.to_nat max_retries - 1)) by lia.
      cbn [seq map for_in]. change (Z.of_nat 0) with 0.
      destruct (wait_attempt_connection_failures pf env max_retries delay 0 t0)
        as (r1 & n1 & E1 & C1).
      subst t0. rewrite nreq_print in C1. cbn [Z.eqb] in C1.
      unfold bind. rewrite E1. destruct r1 as [[b|]|e].
      + unfold ret. rewrite <- app_assoc. eexists _, _. split; [reflexivity|].
        rewrite connection_failures_app. cbn. by rewrite C1.
      + destruct (later_attempts_silent pf env max_retries delay
                    (Z.to_nat max_retries - 1) 1
                    ((t ++ [EPrint [Lit "Waiting for Qdrant at "; Lit QDRANT_URL;
                                    Lit "..."]]) ++ n1))
          as (r2 & n2 & E2 & C2); [lia|].
        rewrite E2. destruct r2 as [[b|]|e]; cbn; rewrite <- !app_assoc;
          eexists _, _; (split; [reflexivity|]);
          rewrite !connection_failures_app, C1, C2; cbn; lia.
      + rewrite <- app_assoc. eexists _, _. split; [reflexivity|].
        rewrite connection_failures_app. cbn. by rewrite C1. }
  rewrite E in Hrun. injection Hrun as _ ->%app_inv_head. done.
Qed.

Lemma wait_for_qdrant_reports_first_failure_only_witness :
  connection_failures (snd (wait_for_qdrant linux ready_on_third 30 2 []))
  = match ready_on_third (nreq []) (GET root_url) with
    | Fails => if 0 <? 30 then 1%nat else 0%nat
    | Responds _ => 0%nat
    end.
Proof.
  apply (wait_for_qdrant_reports_first_failure_only linux ready_on_third 30 2 []
           (snd (wait_for_qdrant linux ready_on_third 30 2 []))
           (fst (wait_for_qdrant linux ready_on_third 30 2 []))).
  vm_compute. reflexivity.
Defined.

(** ** More on the provisioner *)

Section ProvisionerPaths.

Variable env : nat -> request -> outcome.
Variable name : string.

Lemma attempts_index_put (field_name : string) (fc : field_config) (out : outcome) :
  attempts [EHttp (PUT (index_url name) (IndexBody field_name (declared_schema fc))) out]
  = [index_put name (field_name, fc)].
Proof. done. Qed.

(** The loop over the payload schema, with the requests it makes. *)
Lemma index_loop_requests (fields : list (string * field_config)) : forall t : trace,
  exists new processed rest,
    fields = processed ++ rest
    /\ attempts new = map (index_put name) processed
    /\ creation_succeeded name new = false
    /\ ((for_each fields (create_index env name) t = (Ret tt, t ++ new)
         /\ index_raised new = false /\ rest = [])
        \/ (for_each fields (create_index env name) t
            = (Raise RequestException, t ++ new)
            /\ index_raised new = true
            /\ exists n field, env n (index_put name field) = Fails)).
Proof.
  induction fields as [|[field_name fc] fields IH]; intros t.
  - exists [], [], []. cbn. unfold ret. rewrite app_nil_r. split_and!; eauto.
  - set (req := PUT (index_url name) (IndexBody field_name (declared_schema fc))).
    destruct (env (nreq t) req) as [r|] eqn:Henv.
    + set (ev := EHttp req (Responds r)).
      assert (exists pl,
                for_each ((field_name, fc) :: fields) (create_index env name) t
                = for_each fields (create_index env name) (t ++ ev :: pl)
                /\ attempts pl = []
                /\ creation_succeeded name pl = false
                /\ index_raised pl = false) as (pl & -> & P1 & P2 & P3).
      { cbn [for_each].
        unfold bind, create_index, bind, requests_put, http, index_payload.
        rewrite declared_schema_get. fold req. rewrite Henv. fold ev.
        destruct (created_status (status_code r)); cbn; unfold print, emit, ret;
          [eexists [_] | exists []]; rewrite <- ?app_assoc;
          (split; [reflexivity | done]). }
      destruct (IH (t ++ ev :: pl)) as (new & processed & rest & -> & I & C & H).
      exists ([ev] ++ pl ++ new), ((field_name, fc) :: processed), rest.
      rewrite !attempts_app, P1, I.
      unfold creation_succeeded, index_raised in *.
      rewrite !existsb_app, P2, P3, C.
      rewrite <- app_assoc in H. cbn [app] in H.
      split_and!; [done | done | done |].
      destruct H as [(-> & -> & ->)|(-> & -> & Hn)]; [left|right]; done.
    + exists [EHttp req Fails], [(field_name, fc)], fields.
      split_and!; [done | done | done |].
      right. split_and!; [|done|by exists (nreq t), (field_name, fc)].
      cbn [for_each].
      unfold bind, create_index, bind, requests_put, http, index_payload.
      rewrite declared_schema_get. fold req. by rewrite Henv.
Qed.

(** The six ways a call of the provisioner can go. *)
Lemma create_collection_paths (cfg : collection_config) (t : trace) :
  let out0 := env (nreq t) (GET (collection_url name)) in
  let ev0 := EHttp (GET (collection_url name)) out0 in
  exists b new,
    create_collection env name cfg t = (Ret b, t ++ new)
    /\ ((found out0 = true /\ b = true
         /\ new = [ev0; EPrint [Lit "  → Collection '"; Lit name;
                                Lit "' already exists, skipping..."]])
        \/ (found out0 = false /\ vectors cfg = None /\ b = false
            /\ new = [ev0; EPrint [Lit "  ✗ Error creating collection '"; Lit name;
                                   Lit "': "; Exn (KeyError "vectors")]])
        \/ (exists vs out1,
              found out0 = false /\ vectors cfg = Some vs
              /\ out1 = env (nreq t + 1)%nat (PUT (collection_url name) (CreateBody vs))
              /\ ((out1 = Fails /\ b = false
                   /\ new = [ev0; EHttp (PUT (collection_url name) (CreateBody vs)) out1;
                             EPrint [Lit "  ✗ Error creating collection '"; Lit name;
                                     Lit "': "; Exn RequestException]])
                  \/ (exists r,
                        out1 = Responds r /\ created_status (status_code r) = false
                        /\ b = false
                        /\ new = [ev0;
                                  EHttp (PUT (collection_url name) (CreateBody vs)) out1;
                                  EPrint [Lit "  ✗ Failed to create collection '";
                                          Lit name; Lit "': "; Lit (text r)]])
                  \/ (exists r loop processed rest,
                        out1 = Responds r /\ created_status (status_code r) = true
                        /\ default [] (payload_schema cfg) = processed ++ rest
                        /\ attempts loop = map (index_put name) processed
                        /\ creation_succeeded name loop = false
                        /\ ((b = true /\ rest = [] /\ index_raised loop = false
                             /\ new = [ev0;
                                       EHttp (PUT (collection_url name) (CreateBody vs))
                                             out1;
                                       EPrint [Lit "  ✓ Created collection '"; Lit name;
                                               Lit "'"]] ++ loop)
                            \/ (b = false /\ index_raised loop = true
                                /\ (exists n field, env n (index_put name field) = Fails)
                                /\ new = [ev0;
                                          EHttp (PUT (collection_url name) (CreateBody vs))
                                                out1;
                                          EPrint [Lit "  ✓ Created collection '";
                                                  Lit name; Lit "'"]]
                                         ++ loop
                                         ++ [EPrint [Lit "  ✗ Error creating collection '";
                                                     Lit name; Lit "': ";
                                                     Exn RequestException]])))))).
Proof.
  intros out0 ev0.
  unfold create_collection, bind at 1. rewrite collection_exists_run.
  fold out0. fold ev0.
  destruct (found out0) eqn:Hfound.
  { eexists true, _. split; [|left; done]. cbn. by rewrite <- app_assoc. }
  unfold try_except, bind at 1.
  destruct (vectors cfg) as [vs|] eqn:Hvs.
  2:{ eexists false, _. split; [|right; left; done]. cbn. by rewrite <- app_assoc. }
  unfold ret at 1, bind at 1, requests_put, http.
  assert (nreq (t ++ [ev0]) = (nreq t + 1)%nat) as -> by (by rewrite nreq_app).
  destruct (env (nreq t + 1)%nat (PUT (collection_url name) (CreateBody vs)))
    as [r|] eqn:Henv.
  2:{ eexists false, _. split.
      - cbn. by rewrite <- !app_assoc.
      - right; right. exists vs, Fails. rewrite Henv. split_and!; try done.
        left. done. }
  set (ev1 := EHttp (PUT (collection_url name) (CreateBody vs)) (Responds r)).
  destruct (created_status (status_code r)) eqn:Hst.
  2:{ eexists false, _. split.
      - cbn. by rewrite <- !app_assoc.
      - right; right. exists vs, (Responds r). rewrite Henv. split_and!; try done.
        right; left. exists r. done. }
  unfold bind at 1, print at 1, emit. rewrite <- !app_assoc. cbn [app].
  set (ev2 := EPrint _). unfold bind at 1.
  destruct (payload_schema cfg) as [fields|]; cbn [default from_option id].
  2:{ eexists true, _. split.
      - cbn. reflexivity.
      - right; right. exists vs, (Responds r). rewrite Henv. split_and!; try done.
        right; right. exists r, [], [], []. split_and!; try done. left. done. }
  destruct (index_loop_requests fields (t ++ [ev0; ev1; ev2]))
    as (loop & processed & rest & -> & I & C & [(-> & R & ->)|(-> & R & Hn)]).
  - eexists true, _. split.
    + cbn. rewrite <- app_assoc. reflexivity.
    + right; right. exists vs, (Responds r). rewrite Henv. split_and!; try done.
      right; right. exists r, loop, processed, []. split_and!; try done. left. done.
  - eexists false, _. split.
    + cbn [is_Exception]. unfold bind, print, emit, ret. rewrite <- !app_assoc.
      reflexivity.
    + right; right. exists vs, (Responds r). rewrite Henv. split_and!; try done.
      right; right. exists r, loop, processed, rest. split_and!; try done.
      right. done.
Qed.

End ProvisionerPaths.

(** Case analysis on the run recorded in [H]. *)
Ltac provisioner_cases env name cfg t H :=
  let b := fresh "b" in
  let new' := fresh "new'" in
  let E := fresh "E" in
  let Hpath := fresh "Hpath" in
  destruct (create_collection_paths env name cfg t) as (b & new' & E & Hpath);
  rewrite E in H; injection H as <- ->%app_inv_head; clear E;
  destruct Hpath as
    [(Hfound & -> & ->)
    |[(Hfound & Hvs & -> & ->)
     |(vs & out1 & Hfound & Hvs & Hout &
        [(-> & -> & ->)
        |[(r & -> & Hst & -> & ->)
         |(r & loop & processed & rest & -> & Hst & Hfields & Hatt & Hcs &
             [(-> & -> & Hraised & ->)|(-> & Hraised & Hfails & ->)])]])]].

Lemma creation_succeeded_created (name : string) (vs : vectors_config) (r : response)
    (out0 : outcome) (after : trace) :
  creation_succeeded name
    (EHttp (GET (collection_url name)) out0
     :: EHttp (PUT (collection_url name) (CreateBody vs)) (Responds r) :: after)
  = created_status (status_code r) || creation_succeeded name after.
Proof. unfold creation_succeeded. cbn. by rewrite String.eqb_refl. Qed.

Lemma index_raised_printed (t : trace) (line : list frag) :
  index_raised (t ++ [EPrint line]) = index_raised t.
Proof. unfold index_raised. rewrite existsb_app. cbn. by rewrite orb_false_r. Qed.

(** X5. The result of [create_collection] in every case: [True] exactly
    when the collection was found to exist, or the creation request was
    answered with status 200 or 201 and no index request raised. *)
Theorem create_collection_result env (name : string) (cfg : collection_config)
    (t new : trace) (res : result bool) :
  create_collection env name cfg t = (res, t ++ new) ->
  res = Ret (found (env (nreq t) (GET (collection_url name)))
             || creation_succeeded name new && negb (index_raised new)).
Proof.
  intros H. provisioner_cases env name cfg t H; rewrite Hfound.
  - done.
  - done.
  - done.
  - rewrite creation_succeeded_created, Hst. done.
  - cbn [app]. rewrite creation_succeeded_created, Hst. cbn.
    unfold index_raised in *. cbn. by rewrite Hraised.
  - cbn [app]. rewrite creation_succeeded_created, Hst. cbn.
    assert (index_raised (loop ++ [EPrint [Lit "  ✗ Error creating collection '";
                                           Lit name; Lit "': "; Exn RequestException]])
            = true) as Hr by (by rewrite index_raised_printed).
    unfold index_raised in *. cbn. by rewrite Hr.
Qed.

Lemma create_collection_result_witness :
  fst (create_collection drops_on_index "documents" sample_config [])
  = Ret (found (drops_on_index (nreq []) (GET (collection_url "documents")))
         || creation_succeeded "documents"
              (snd (create_collection drops_on_index "documents" sample_config []))
            && negb (index_raised
                       (snd (create_collection drops_on_index "documents"
                               sample_config [])))).
Proof.
  apply (create_collection_result drops_on_index "documents" sample_config []).
  vm_compute. reflexivity.
Defined.

Lemma puts_of_index_puts (name : string) (fields : list (string * field_config)) :
  puts_of (map (index_put name) fields)
  = map (fun field : string * field_config =>
           (index_url name, IndexBody (fst field) (declared_schema (snd field))))
        fields.
Proof.
  unfold puts_of. induction fields as [|field fields IH]; [done|]. cbn. by rewrite IH.
Qed.

Lemma gets_index_puts (name : string) (fields : list (string * field_config)) :
  omap (fun req => match req with GET url => Some url | PUT _ _ => None end)
       (map (index_put name) fields) = [].
Proof. induction fields as [|field fields IH]; [done|]. cbn. apply IH. Qed.

Lemma attempts_printed (t : trace) (line : list frag) :
  attempts (t ++ [EPrint line]) = attempts t.
Proof. rewrite attempts_app. cbn. by rewrite app_nil_r. Qed.

(** The requests of a call of the provisioner, in closed form. *)
Lemma create_collection_attempts env (name : string) (cfg : collection_config)
    (t new : trace) (res : result bool) :
  create_collection env name cfg t = (res, t ++ new) ->
  exists processed rest,
    default [] (payload_schema cfg) = processed ++ rest
    /\ attempts new
       = GET (collection_url name)
         :: (if found (env (nreq t) (GET (collection_url name))) then []
             else match vectors cfg with
                  | None => []
                  | Some vs =>
                      PUT (collection_url name) (CreateBody vs)
                      :: map (index_put name) processed
                  end)
    /\ (creation_succeeded name new = false -> processed = [])
    /\ (creation_succeeded name new = true -> index_raised new = false -> rest = []).
Proof.
  intros H. provisioner_cases env name cfg t H; rewrite Hfound, ?Hvs.
  - exists [], (default [] (payload_schema cfg)). done.
  - exists [], (default [] (payload_schema cfg)). done.
  - exists [], (default [] (payload_schema cfg)). done.
  - exists [], (default [] (payload_schema cfg)).
    rewrite creation_succeeded_created, Hst. done.
  - exists processed, []. cbn [app].
    rewrite creation_succeeded_created, Hst. split_and!; try done.
    change (attempts (?a :: ?b :: ?c :: loop)) with (GET (collection_url name)
      :: PUT (collection_url name) (CreateBody vs) :: attempts loop).
    by rewrite Hatt.
  - exists processed, rest. cbn [app].
    rewrite creation_succeeded_created, Hst. split_and!; try done.
    + change (attempts (?a :: ?b :: ?c :: ?l)) with (GET (collection_url name)
        :: PUT (collection_url name) (CreateBody vs) :: attempts l).
      by rewrite attempts_printed, Hatt.
    + intros _ Hno. exfalso.
      assert (index_raised (loop ++ [EPrint [Lit "  ✗ Error creating collection '";
                                             Lit name; Lit "': "; Exn RequestException]])
              = true) as Hr by (by rewrite index_raised_printed).
      unfold index_raised in *. cbn in Hno. by rewrite Hr in Hno.
Qed.

(** X6. Without a successful creation request, because it was refused, it
    raised, the configuration has no ["vectors"] entry or the collection
    exists, [create_collection] issues no index request and at most one
    write, and its result is that of the existence check. *)
Theorem create_collection_no_index_without_creation env (name : string)
    (cfg : collection_config) (t new : trace) (res : result bool) :
  create_collection env name cfg t = (res, t ++ new) ->
  creation_succeeded name new = false ->
  index_requests new = []
  /\ (length (put_requests new) <= 1)%nat
  /\ res = Ret (found (env (nreq t) (GET (collection_url name)))).
Proof.
  intros H Hnot.
  destruct (create_collection_attempts env name cfg t new res H)
    as (processed & rest & _ & Hatt & Hnone & _).
  rewrite (Hnone Hnot) in Hatt.
  split_and!.
  - assert (index_requests new
            = omap (fun req => match req with
                               | PUT _ (IndexBody f s) => Some (f, s)
                               | _ => None
                               end) (attempts new)) as ->.
    { clear. unfold index_requests, attempts, actions.
      induction new as [|[[url|url [v|f s]] out|secs|line] new IH]; cbn;
        rewrite ?IH; done. }
    rewrite Hatt. destruct (found _); [done|]. by destruct (vectors cfg).
  - rewrite put_requests_attempts, Hatt.
    destruct (found _); [cbn; lia|]. destruct (vectors cfg); cbn; lia.
  - clear Hatt Hnone processed rest.
    provisioner_cases env name cfg t H; rewrite Hfound; try done.
    cbn [app] in Hnot. rewrite creation_succeeded_created, Hst in Hnot. discriminate.
Qed.

Lemma create_collection_no_index_without_creation_witness :
  index_requests (snd (create_collection always_500 "documents" sample_config [])) = []
  /\ (length (put_requests
                (snd (create_collection always_500 "documents" sample_config [])))
      <= 1)%nat
  /\ fst (create_collection always_500 "documents" sample_config [])
     = Ret (found (always_500 (nreq []) (GET (collection_url "documents")))).
Proof.
  apply (create_collection_no_index_without_creation
           always_500 "documents" sample_config []).
  - vm_compute. reflexivity.
  - vm_compute. reflexivity.
Defined.

(** X7. A configuration without the ["vectors"] entry: when the collection
    is not found, the [KeyError] is caught before any write is attempted
    and [create_collection] returns [False]. *)
Theorem create_collection_missing_vectors env (name : string)
    (cfg : collection_config) (t : trace) :
  fst (collection_exists env name t) = Ret false ->
  vectors cfg = None ->
  create_collection env name cfg t
  = (Ret false,
     t ++ [EHttp (GET (collection_url name)) (env (nreq t) (GET (collection_url name)));
           EPrint [Lit "  ✗ Error creating collection '"; Lit name; Lit "': ";
                   Exn (KeyError "vectors")]])
  /\ put_requests (snd (create_collection env name cfg t)) = put_requests t.
Proof.
  rewrite collection_exists_run. cbn [fst]. intros [= Hnot] Hnone.
  destruct (create_collection env name cfg t) as [res t'] eqn:E.
  destruct (create_collection_paths env name cfg t) as (b & new & E' & Hpath).
  rewrite E in E'. injection E' as -> ->.
  destruct Hpath as [(Hf & _)|[(_ & _ & -> & ->)|(vs & out1 & _ & Hv & _)]];
    [congruence | | congruence].
  split; [done|]. cbn [snd]. rewrite put_requests_app. cbn. by rewrite app_nil_r.
Qed.

Lemma create_collection_missing_vectors_witness :
  create_collection fresh_store "notes" no_vectors []
  = (Ret false,
     [] ++ [EHttp (GET (collection_url "notes"))
                  (fresh_store (nreq []) (GET (collection_url "notes")));
            EPrint [Lit "  ✗ Error creating collection '"; Lit "notes"; Lit "': ";
                    Exn (KeyError "vectors")]])
  /\ put_requests (snd (create_collection fresh_store "notes" no_vectors []))
     = put_requests [].
Proof.
  apply (create_collection_missing_vectors fresh_store "notes" no_vectors []).
  - vm_compute. reflexivity.
  - reflexivity.
Defined.

(** X8. A complete provisioning: when the creation request is accepted and
    no index request raises, the requests of [create_collection] are the
    existence check, the creation request carrying the ["vectors"] entry of
    the configuration, and one index request per payload field, in the
    order of the schema. *)
Theorem create_collection_success_requests env (name : string)
    (cfg : collection_config) (t new : trace) (res : result bool) :
  create_collection env name cfg t = (res, t ++ new) ->
  creation_succeeded name new = true ->
  index_raised new = false ->
  exists vs,
    vectors cfg = Some vs
    /\ attempts new
       = GET (collection_url name)
         :: PUT (collection_url name) (CreateBody vs)
         :: map (index_put name) (default [] (payload_schema cfg))
    /\ put_requests new = expected_puts (name, cfg).
Proof.
  intros H Hcreated Hnoraise. provisioner_cases env name cfg t H.
  - discriminate.
  - discriminate.
  - discriminate.
  - rewrite creation_succeeded_created, Hst in Hcreated. discriminate.
  - rewrite app_nil_r in Hfields. exists vs. cbn [app].
    assert (attempts (EHttp (GET (collection_url name))
                            (env (nreq t) (GET (collection_url name)))
                      :: EHttp (PUT (collection_url name) (CreateBody vs)) (Responds r)
                      :: EPrint [Lit "  ✓ Created collection '"; Lit name; Lit "'"]
                      :: loop)
            = GET (collection_url name)
              :: PUT (collection_url name) (CreateBody vs)
              :: map (index_put name) (default [] (payload_schema cfg))) as Hreqs.
    { change (attempts (?a :: ?b :: ?c :: loop)) with (GET (collection_url name)
        :: PUT (collection_url name) (CreateBody vs) :: attempts loop).
      by rewrite Hatt, Hfields. }
    split_and!; [done | done |].
    rewrite put_requests_attempts, Hreqs. unfold expected_puts. cbn [fst snd].
    rewrite Hvs. cbn. by rewrite puts_of_index_puts.
  - exfalso. cbn [app] in Hnoraise.
    assert (index_raised (loop ++ [EPrint [Lit "  ✗ Error creating collection '";
                                           Lit name; Lit "': "; Exn RequestException]])
            = true) as Hr by (by rewrite index_raised_printed).
    unfold index_raised in *. cbn in Hnoraise. by rewrite Hr in Hnoraise.
Qed.

Lemma create_collection_success_requests_witness :
  exists vs,
    vectors sample_config = Some vs
    /\ attempts (snd (create_collection refuses_indexes "documents" sample_config []))
       = GET (collection_url "documents")
         :: PUT (collection_url "documents") (CreateBody vs)
         :: map (index_put "documents") (default [] (payload_schema sample_config))
    /\ put_requests (snd (create_collection refuses_indexes "documents" sample_config []))
       = expected_puts ("documents", sample_config).
Proof.
  apply (create_collection_success_requests refuses_indexes "documents" sample_config []
           (snd (create_collection refuses_indexes "documents" sample_config []))
           (fst (create_collection refuses_indexes "documents" sample_config []))).
  - vm_compute. reflexivity.
  - vm_compute. reflexivity.
  - vm_compute. reflexivity.
Defined.


(** X9. [create_collection] only addresses the collection it is given:
    its single GET is the existence check, every write goes to the
    collection or to its index resource, and there are at most one write
    more than the payload schema has fields. *)
Theorem create_collection_addresses_its_collection env (name : string)
    (cfg : collection_config) (t new : trace) (res : result bool) :
  create_collection env name cfg t = (res, t ++ new) ->
  gets new = [collection_url name]
  /\ head (attempts new) = Some (GET (collection_url name))
  /\ Forall (fun write => fst write = collection_url name
                          \/ fst write = index_url name)
            (put_requests new)
  /\ (length (put_requests new) <= 1 + length (default [] (payload_schema cfg)))%nat.
Proof.
  intros H.
  destruct (create_collection_attempts env name cfg t new res H)
    as (processed & rest & Hfields & Hatt & _ & _).
  rewrite put_requests_attempts. unfold gets. rewrite Hatt, Hfields, length_app.
  destruct (found _); [cbn; split_and!; try done; lia|].
  destruct (vectors cfg) as [vs|]; [|cbn; split_and!; try done; lia].
  cbn. rewrite gets_index_puts.
  change (omap _ (map (index_put name) processed))
    with (puts_of (map (index_put name) processed)).
  rewrite puts_of_index_puts. split_and!; [done | done | |].
  - apply Forall_cons. split; [by left|].
    apply Forall_map, Forall_forall. intros field _. by right.
  - rewrite length_map. lia.
Qed.

Lemma create_collection_addresses_its_collection_witness :
  gets (snd (create_collection drops_on_index "documents" sample_config []))
  = [collection_url "documents"]
  /\ head (attempts (snd (create_collection drops_on_index "documents" sample_config [])))
     = Some (GET (collection_url "documents"))
  /\ Forall (fun write => fst write = collection_url "documents"
                          \/ fst write = index_url "documents")
            (put_requests
               (snd (create_collection drops_on_index "documents" sample_config [])))
  /\ (length (put_requests
                (snd (create_collection drops_on_index "documents" sample_config [])))
      <= 1 + length (default [] (payload_schema sample_config)))%nat.
Proof.
  apply (create_collection_addresses_its_collection
           drops_on_index "documents" sample_config []
           (snd (create_collection drops_on_index "documents" sample_config []))
           (fst (create_collection drops_on_index "documents" sample_config []))).
  vm_compute. reflexivity.
Defined.

(** ** Computations that only print *)

Section Quiet.

Variable P : exn -> bool.

Lemma quiet_ret {A} (a : A) : quiet P (ret a).
Proof. intros t. exists (Ret a), []. cbn. unfold ret. by rewrite app_nil_r. Qed.

Lemma quiet_raise {A} (e : exn) : P e = true -> quiet P (@raise A e).
Proof. intros H t. exists (Raise e), []. cbn. unfold raise. by rewrite app_nil_r. Qed.

Lemma quiet_print (line : list frag) : quiet P (print line).
Proof. intros t. by exists (Ret tt), [line]. Qed.

Lemma quiet_bind {A B} (m : M A) (k : A -> M B) :
  quiet P m -> (forall a, quiet P (k a)) -> quiet P (bind m k).
Proof.
  intros Hm Hk t. unfold bind. destruct (Hm t) as ([a|e] & l1 & -> & H1).
  - destruct (Hk a (t ++ map EPrint l1)) as (r & l2 & -> & H2).
    exists r, (l1 ++ l2). by rewrite map_app, app_assoc.
  - by exists (Raise e), l1.
Qed.

Lemma quiet_for_each {A} (xs : list A) (body : A -> M unit) :
  (forall x, quiet P (body x)) -> quiet P (for_each xs body).
Proof.
  intros Hbody. induction xs as [|x xs IH]; cbn [for_each].
  - apply quiet_ret.
  - by apply quiet_bind.
Qed.

End Quiet.

Lemma quiet_response_json (r : response) : quiet is_Exception (response_json r).
Proof.
  unfold response_json. destruct (body r); [apply quiet_ret | by apply quiet_raise].
Qed.

Lemma quiet_json_get (v : json) (key : string) (dflt : json) :
  quiet is_Exception (json_get v key dflt).
Proof.
  destruct v; cbn; try (by apply quiet_raise).
  destruct (assoc key fields); apply quiet_ret.
Qed.

Lemma quiet_json_iter (v : json) : quiet is_Exception (json_iter v).
Proof. destruct v; cbn; try (by apply quiet_raise); apply quiet_ret. Qed.

Lemma quiet_json_index (v : json) (key : string) :
  quiet is_Exception (json_index v key).
Proof.
  destruct v; cbn; try (by apply quiet_raise).
  destruct (assoc key fields); [apply quiet_ret | by apply quiet_raise].
Qed.

(** A request followed by a quiet block, under a handler that prints. *)
Lemma request_then_quiet env (url : string) (k : response -> M unit)
    (catches : exn -> bool) (handler : exn -> M unit) (t : trace) :
  (forall r, quiet is_Exception (k r)) ->
  (forall e, is_Exception e = true -> catches e = true) ->
  (forall e, exists lines, forall t', handler e t' = (Ret tt, t' ++ map EPrint lines)) ->
  exists lines,
    try_except (bind (requests_get env url) k) catches handler t
    = (Ret tt, t ++ EHttp (GET url) (env (nreq t) (GET url)) :: map EPrint lines).
Proof.
  intros Hk Hc Hh. unfold try_except, bind, requests_get, http.
  destruct (env (nreq t) (GET url)) as [r|].
  - destruct (Hk r (t ++ [EHttp (GET url) (Responds r)])) as ([[]|e] & l1 & -> & H1).
    + exists l1. by rewrite <- app_assoc.
    + rewrite (Hc e H1). destruct (Hh e) as (l2 & ->).
      exists (l1 ++ l2). by rewrite map_app, <- !app_assoc.
  - rewrite (Hc RequestException eq_refl). destruct (Hh RequestException) as (l2 & ->).
    exists l2. by rewrite <- app_assoc.
Qed.

Lemma list_collections_run env (t : trace) :
  exists lines,
    list_collections env t
    = (Ret tt,
       t ++ EHttp (GET listing_url) (env (nreq t) (GET listing_url)) :: map EPrint lines).
Proof.
  unfold list_collections. apply request_then_quiet; [|done|].
  - intros response.
    destruct (status_code response =? 200); [|apply quiet_ret].
    apply quiet_bind; [apply quiet_response_json|]. intros data.
    apply quiet_bind; [apply quiet_json_get|]. intros res.
    apply quiet_bind; [apply quiet_json_get|]. intros collections.
    destruct (truthy collections); [|apply quiet_print].
    apply quiet_bind; [apply quiet_print|]. intros _.
    apply quiet_bind; [apply quiet_json_iter|]. intros cols.
    apply quiet_for_each. intros col. unfold print_collection.
    apply quiet_bind; [apply quiet_json_index|]. intros nm. apply quiet_print.
  - intros e. by exists [[Lit "Error listing collections: "; Exn e]].
Qed.

(** A request followed by a quiet block. *)
Lemma get_then_quiet env (url : string) (k : response -> M unit) (t : trace) :
  (forall r, quiet is_Exception (k r)) ->
  exists res lines,
    bind (requests_get env url) k t
    = (res, t ++ EHttp (GET url) (env (nreq t) (GET url)) :: map EPrint lines).
Proof.
  intros Hk. unfold bind, requests_get, http.
  destruct (env (nreq t) (GET url)) as [r|].
  - destruct (Hk r (t ++ [EHttp (GET url) (Responds r)])) as (res & l1 & -> & _).
    exists res, l1. by rewrite <- app_assoc.
  - by exists (Raise RequestException), [].
Qed.

(** The guarded block makes the request and then only prints. *)
Lemma listing_block_run env (t : trace) :
  exists res lines,
    listing_block env t
    = (res, t ++ EHttp (GET listing_url) (env (nreq t) (GET listing_url))
                 :: map EPrint lines).
Proof.
  unfold listing_block. apply get_then_quiet. intros response.
  destruct (status_code response =? 200); [|apply quiet_ret].
  apply quiet_bind; [apply quiet_response_json|]. intros data.
  apply quiet_bind; [apply quiet_json_get|]. intros res.
  apply quiet_bind; [apply quiet_json_get|]. intros collections.
  destruct (truthy collections); [|apply quiet_print].
  apply quiet_bind; [apply quiet_print|]. intros _.
  apply quiet_bind; [apply quiet_json_iter|]. intros cols.
  apply quiet_for_each. intros col. unfold print_collection.
  apply quiet_bind; [apply quiet_json_index|]. intros nm. apply quiet_print.
Qed.

(** [listing_block] is the block that [list_collections] guards. *)
Lemma list_collections_guards_block env :
  list_collections env
  = try_except (listing_block env) is_Exception
      (fun e => print [Lit "Error listing collections: "; Exn e]).
Proof. reflexivity. Qed.

(** The guarded block raises ordinary exceptions only. *)
Lemma listing_block_raises_only env : raises_only is_Exception (listing_block env).
Proof.
  unfold listing_block.
  apply raises_only_bind; [by apply raises_only_http|]. intros response.
  destruct (status_code response =? 200); [|apply raises_only_ret].
  apply raises_only_bind; [apply raises_only_response_json|]. intros data.
  apply raises_only_bind; [apply raises_only_json_get|]. intros res.
  apply raises_only_bind; [apply raises_only_json_get|]. intros collections.
  destruct (truthy collections); [|apply raises_only_emit].
  apply raises_only_bind; [apply raises_only_emit|]. intros _.
  apply raises_only_bind; [apply raises_only_json_iter|]. intros cols.
  apply raises_only_for_each. intros col. unfold print_collection.
  apply raises_only_bind; [apply raises_only_json_index|]. intros nm.
  apply raises_only_emit.
Qed.

(** C5, with the cases in which the diagnostic is printed.
    [list_collections] always returns normally. Whenever the statements it
    guards raise an exception, be it the transport error of the request or
    an error while a 200 response is processed (undecodable body, body of
    the wrong shape, entry without a name), it prints the error line for
    that exception as its last line; when they do not raise it adds nothing
    to what they printed. In particular a transport error gives the request
    and the error line, and a response with a status other than 200 gives
    the request and no line at all. *)
Theorem list_collections_diagnostics env (t : trace) :
  (exists t', list_collections env t = (Ret tt, t'))
  /\ list_collections env t
     = match listing_block env t with
       | (Ret _, t') => (Ret tt, t')
       | (Raise e, t') => (Ret tt, t' ++ [listing_error_line e])
       end
  /\ match env (nreq t) (GET listing_url) with
     | Fails =>
         listing_block env t
         = (Raise RequestException, t ++ [EHttp (GET listing_url) Fails])
         /\ list_collections env t
            = (Ret tt,
               t ++ [EHttp (GET listing_url) Fails;
                     EPrint [Lit "Error listing collections: "; Exn RequestException]])
     | Responds r =>
         if status_code r =? 200 then
           match body r with
           | None =>
               list_collections env t
               = (Ret tt,
                  t ++ [EHttp (GET listing_url) (Responds r);
                        EPrint [Lit "Error listing collections: "; Exn JSONDecodeError]])
           | Some (JObj _) =>
               exists res lines,
                 listing_block env t
                 = (res, t ++ EHttp (GET listing_url) (Responds r) :: map EPrint lines)
                 /\ list_collections env t
                    = (Ret tt,
                       t ++ EHttp (GET listing_url) (Responds r)
                         :: map EPrint
                              (lines ++ match res with
                                        | Ret _ => []
                                        | Raise e =>
                                            [[Lit "Error listing collections: "; Exn e]]
                                        end))
           | Some _ =>
               list_collections env t
               = (Ret tt,
                  t ++ [EHttp (GET listing_url) (Responds r);
                        EPrint [Lit "Error listing collections: "; Exn AttributeError]])
           end
         else
           listing_block env t = (Ret tt, t ++ [EHttp (GET listing_url) (Responds r)])
           /\ list_collections env t
              = (Ret tt, t ++ [EHttp (GET listing_url) (Responds r)])
     end.
Proof.
  destruct (listing_block_run env t) as (res0 & lines0 & Hrun).
  split_and!.
  - destruct (list_collections_returns env t) as ([] & t' & E). eauto.
  - rewrite list_collections_guards_block. unfold try_except.
    pose proof (listing_block_raises_only env t) as Hclass.
    destruct (listing_block env t) as [[[]|e] t']; cbn in Hclass; [done|].
    by rewrite Hclass.
  - destruct (env (nreq t) (GET listing_url)) as [r|] eqn:Henv.
    + destruct (status_code r =? 200) eqn:Hst.
      * destruct (body r) as [[]|] eqn:Hbody;
          try (unfold list_collections, try_except, bind, requests_get, http,
                 response_json;
               rewrite Henv, Hst, Hbody; cbn; unfold raise, print, emit; cbn;
               by rewrite <- ?app_assoc).
        exists res0, lines0. split; [done|].
        rewrite list_collections_guards_block. unfold try_except.
        pose proof (listing_block_raises_only env t) as Hclass.
        rewrite Hrun in Hclass |- *. destruct res0 as [[]|e]; cbn in Hclass.
        -- by rewrite app_nil_r.
        -- rewrite Hclass. unfold print, emit. cbn.
           by rewrite map_app, <- app_assoc.
      * unfold list_collections, listing_block, try_except, bind, requests_get, http.
        by rewrite Henv, Hst.
    + unfold list_collections, listing_block, try_except, bind, requests_get, http.
      rewrite Henv. unfold print, emit. cbn. by rewrite <- app_assoc.
Qed.

(** C5 does not extend to a bad status: on a response with status 500 the
    reporter prints nothing. *)
Lemma list_collections_silent_on_bad_status :
  list_collections always_500 []
  = (Ret tt, [EHttp (GET listing_url) (Responds error_response)])
  /\ status_code error_response <> 200
  /\ printed (snd (list_collections always_500 [])) = [].
Proof. split_and!; [vm_compute; reflexivity | done | vm_compute; reflexivity]. Qed.

Lemma print_version_run env (t : trace) :
  exists lines,
    print_version env t
    = (Ret tt,
       t ++ EHttp (GET root_url) (env (nreq t) (GET root_url)) :: map EPrint lines).
Proof.
  unfold print_version. apply request_then_quiet; [|done|].
  - intros response.
    destruct (status_code response =? 200); [|apply quiet_ret].
    apply quiet_bind; [apply quiet_response_json|]. intros info.
    apply quiet_bind; [apply quiet_json_get|]. intros version.
    apply quiet_print.
  - intros e. exists []. intros t'. unfold ret. cbn. by rewrite app_nil_r.
Qed.

(** ** More on the inventory reporter *)

Lemma for_each_app {A} (xs ys : list A) (body : A -> M unit) (t t' : trace) :
  for_each xs body t = (Ret tt, t') ->
  for_each (xs ++ ys) body t = for_each ys body t'.
Proof.
  revert t. induction xs as [|x xs IH]; intros t H; cbn in *.
  - unfold ret in H. by inversion H.
  - unfold bind in *. destruct (body x t) as [[[]|e] t1]; [by apply IH | done].
Qed.

(** Printing a run of well-formed entries. *)
Lemma print_collections_named (items names : list json) (t : trace) :
  Forall2 (fun item nm => exists fs, item = JObj fs /\ assoc "name" fs = Some nm)
          items names ->
  for_each items print_collection t = (Ret tt, t ++ map collection_line names).
Proof.
  intros H. revert t. induction H as [|item nm items names (fs & -> & Hnm) _ IH];
    intros t.
  - cbn. unfold ret. by rewrite app_nil_r.
  - cbn [for_each]. unfold bind, print_collection, bind, json_index.
    rewrite Hnm. cbn. rewrite IH. by rewrite <- app_assoc.
Qed.

Lemma json_get_object (fields : list (string * json)) (key : string) (dflt : json)
    (t : trace) :
  json_get (JObj fields) key dflt t = (Ret (default dflt (assoc key fields)), t).
Proof. cbn. by destruct (assoc key fields). Qed.

Lemma requests_get_responds env (url : string) (t : trace) (r : response) :
  env (nreq t) (GET url) = Responds r ->
  requests_get env url t = (Ret r, t ++ [EHttp (GET url) (Responds r)]).
Proof. intros H. unfold requests_get, http. by rewrite H. Qed.

(** Evaluating the first statement of a block. *)
Ltac step_with lem := erewrite bind_run by (apply lem); cbn beta.

(** X10. A well-formed listing: when the service answers 200 with a body
    whose [result.collections] is a non-empty list of objects that each
    have a [name], [list_collections] prints the heading and then one line
    per collection, in the order of the answer, and nothing else. *)
Theorem list_collections_prints_names env (t : trace) (r : response)
    (fields rfields : list (string * json)) (items names : list json) :
  env (nreq t) (GET listing_url) = Responds r ->
  status_code r = 200 ->
  body r = Some (JObj fields) ->
  assoc "result" fields = Some (JObj rfields) ->
  assoc "collections" rfields = Some (JArr items) ->
  items <> [] ->
  Forall2 (fun item nm => exists fs, item = JObj fs /\ assoc "name" fs = Some nm)
          items names ->
  list_collections env t
  = (Ret tt,
     t ++ [EHttp (GET listing_url) (Responds r);
           EPrint [Lit nl; Lit "Existing collections:"]]
       ++ map collection_line names).
Proof.
  intros Henv Hst Hbody Hres Hcols Hne Hitems.
  unfold list_collections, try_except.
  step_with (requests_get_responds env listing_url t r Henv).
  rewrite Hst, Z.eqb_refl. unfold response_json. rewrite Hbody.
  erewrite bind_run by reflexivity. cbn beta.
  step_with json_get_object. rewrite Hres. cbn [default from_option id].
  step_with json_get_object. rewrite Hcols. cbn [default from_option id].
  assert (truthy (JArr items) = true) as -> by (by destruct items).
  erewrite bind_run by reflexivity. cbn beta.
  erewrite bind_run by reflexivity. cbn beta.
  rewrite (print_collections_named items names) by done.
  by rewrite <- !app_assoc.
Qed.

Lemma list_collections_prints_names_witness :
  list_collections (answers sample_listing) []
  = (Ret tt,
     [] ++ [EHttp (GET listing_url) (Responds sample_listing);
            EPrint [Lit nl; Lit "Existing collections:"]]
        ++ map collection_line [JStr "documents"; JStr "chat_history"]).
Proof.
  apply (list_collections_prints_names (answers sample_listing) [] sample_listing
           [("result",
             JObj [("collections",
                    JArr [JObj [("name", JStr "documents")];
                          JObj [("name", JStr "chat_history")]])]);
            ("status", JStr "ok")]
           [("collections",
             JArr [JObj [("name", JStr "documents")];
                   JObj [("name", JStr "chat_history")]])]
           [JObj [("name", JStr "documents")]; JObj [("name", JStr "chat_history")]]
           [JStr "documents"; JStr "chat_history"]).
  - reflexivity.
  - reflexivity.
  - reflexivity.
  - reflexivity.
  - reflexivity.
  - discriminate.
  - repeat constructor; eexists; split; reflexivity.
Defined.

(** X11. Missing keys fall back to empty defaults: when the body of a 200
    answer is an object without [result], or whose [result] is an object
    without [collections], or lists no collection, [list_collections]
    prints that no collections were found. *)
Theorem list_collections_none_found env (t : trace) (r : response)
    (fields : list (string * json)) :
  env (nreq t) (GET listing_url) = Responds r ->
  status_code r = 200 ->
  body r = Some (JObj fields) ->
  (assoc "result" fields = None
   \/ exists rfields,
        assoc "result" fields = Some (JObj rfields)
        /\ (assoc "collections" rfields = None
            \/ assoc "collections" rfields = Some (JArr []))) ->
  list_collections env t
  = (Ret tt,
     t ++ [EHttp (GET listing_url) (Responds r);
           EPrint [Lit nl; Lit "No collections found"]]).
Proof.
  intros Henv Hst Hbody Hcases.
  unfold list_collections, try_except.
  step_with (requests_get_responds env listing_url t r Henv).
  rewrite Hst, Z.eqb_refl. unfold response_json. rewrite Hbody.
  erewrite bind_run by reflexivity. cbn beta.
  step_with json_get_object.
  destruct Hcases as [->|(rfields & -> & [Hcols|Hcols])];
    cbn [default from_option id]; step_with json_get_object; rewrite ?Hcols;
    cbn; unfold print, emit; by rewrite <- app_assoc.
Qed.

Lemma list_collections_none_found_witness :
  list_collections (answers bare_response) []
  = (Ret tt,
     [] ++ [EHttp (GET listing_url) (Responds bare_response);
            EPrint [Lit nl; Lit "No collections found"]]).
Proof.
  apply (list_collections_none_found (answers bare_response) [] bare_response
           [("status", JStr "ok")]).
  - reflexivity.
  - reflexivity.
  - reflexivity.
  - left. reflexivity.
Defined.

(** X12. An entry without a [name] stops the listing: the collections
    before it are printed, then the [KeyError] is reported by the error
    line, and the entries after it are not printed. *)
Theorem list_collections_stops_at_nameless env (t : trace) (r : response)
    (fields rfields bad : list (string * json)) (good rest names : list json) :
  env (nreq t) (GET listing_url) = Responds r ->
  status_code r = 200 ->
  body r = Some (JObj fields) ->
  assoc "result" fields = Some (JObj rfields) ->
  assoc "collections" rfields = Some (JArr (good ++ JObj bad :: rest)) ->
  Forall2 (fun item nm => exists fs, item = JObj fs /\ assoc "name" fs = Some nm)
          good names ->
  assoc "name" bad = None ->
  list_collections env t
  = (Ret tt,
     t ++ [EHttp (GET listing_url) (Responds r);
           EPrint [Lit nl; Lit "Existing collections:"]]
       ++ map collection_line names
       ++ [EPrint [Lit "Error listing collections: "; Exn (KeyError "name")]]).
Proof.
  intros Henv Hst Hbody Hres Hcols Hgood Hbad.
  unfold list_collections, try_except.
  step_with (requests_get_responds env listing_url t r Henv).
  rewrite Hst, Z.eqb_refl. unfold response_json. rewrite Hbody.
  erewrite bind_run by reflexivity. cbn beta.
  step_with json_get_object. rewrite Hres. cbn [default from_option id].
  step_with json_get_object. rewrite Hcols. cbn [default from_option id].
  assert (truthy (JArr (good ++ JObj bad :: rest)) = true) as ->.
  { cbn. rewrite length_app. cbn. by rewrite Nat.add_succ_r. }
  erewrite bind_run by reflexivity. cbn beta.
  erewrite bind_run by reflexivity. cbn beta.
  rewrite (for_each_app good _ _ _ _ (print_collections_named good names _ Hgood)).
  cbn [for_each]. unfold bind at 1, print_collection, bind at 1, json_index.
  rewrite Hbad. cbn. unfold print, emit. by rewrite <- !app_assoc.
Qed.

Lemma list_collections_stops_at_nameless_witness :
  list_collections (answers broken_listing) []
  = (Ret tt,
     [] ++ [EHttp (GET listing_url) (Responds broken_listing);
            EPrint [Lit nl; Lit "Existing collections:"]]
        ++ map collection_line [JStr "documents"]
        ++ [EPrint [Lit "Error listing collections: "; Exn (KeyError "name")]]).
Proof.
  apply (list_collections_stops_at_nameless (answers broken_listing) [] broken_listing
           [("result",
             JObj [("collections",
                    JArr [JObj [("name", JStr "documents")];
                          JObj [("id", JNum 7)];
                          JObj [("name", JStr "chat_history")]])])]
           [("collections",
             JArr [JObj [("name", JStr "documents")];
                   JObj [("id", JNum 7)];
                   JObj [("name", JStr "chat_history")]])]
           [("id", JNum 7)]
           [JObj [("name", JStr "documents")]]
           [JObj [("name", JStr "chat_history")]]
           [JStr "documents"]).
  - reflexivity.
  - reflexivity.
  - reflexivity.
  - reflexivity.
  - reflexivity.
  - repeat constructor; eexists; split; reflexivity.
  - reflexivity.
Defined.

(** X13. Whatever the service answers, [list_collections] makes exactly
    one request, a GET of the listing address: it never writes and never
    sleeps, and everything else it does is printing. *)
Theorem list_collections_reads_once env (t : trace) :
  exists new,
    list_collections env t = (Ret tt, t ++ new)
    /\ attempts new = [GET listing_url]
    /\ put_requests new = []
    /\ sleeps new = [].
Proof.
  destruct (list_collections_run env t) as (lines & E).
  exists ([EHttp (GET listing_url) (env (nreq t) (GET listing_url))]
          ++ map EPrint lines).
  split; [exact E|].
  rewrite put_requests_attempts, attempts_app, sleeps_app, gets_of_printed.
  rewrite sleeps_printed. done.
Qed.

(** ** The version banner *)

(** X14. After a 200 answer whose body is a JSON object, [main] prints the
    value of its [version] entry, and ["Unknown"] when the object has no
    such entry. *)
Theorem print_version_reports env (t : trace) (r : response)
    (fields : list (string * json)) :
  env (nreq t) (GET root_url) = Responds r ->
  status_code r = 200 ->
  body r = Some (JObj fields) ->
  print_version env t
  = (Ret tt,
     t ++ [EHttp (GET root_url) (Responds r);
           EPrint [Lit nl; Lit "Qdrant version: ";
                   Val (match assoc "version" fields with
                        | Some v => v
                        | None => JStr "Unknown"
                        end)]]).
Proof.
  intros Henv Hst Hbody. unfold print_version, try_except.
  step_with (requests_get_responds env root_url t r Henv).
  rewrite Hst, Z.eqb_refl. unfold response_json. rewrite Hbody.
  erewrite bind_run by reflexivity. cbn beta.
  step_with json_get_object. unfold print, emit. rewrite <- app_assoc.
  by destruct (assoc "version" fields).
Qed.

Lemma print_version_reports_witness :
  print_version (answers bare_response) []
  = (Ret tt,
     [] ++ [EHttp (GET root_url) (Responds bare_response);
            EPrint [Lit nl; Lit "Qdrant version: ";
                    Val (match assoc "version" [("status", JStr "ok")] with
                         | Some v => v
                         | None => JStr "Unknown"
                         end)]]).
Proof.
  apply (print_version_reports (answers bare_response) [] bare_response
           [("status", JStr "ok")]); reflexivity.
Defined.

(** X15. The version request is best effort: a transport error, a status
    other than 200, an undecodable body and a body that is not an object
    are all swallowed without a line of output, and the script goes on. *)
Theorem print_version_swallows_failures env (t : trace) :
  no_version (env (nreq t) (GET root_url)) = true ->
  print_version env t
  = (Ret tt, t ++ [EHttp (GET root_url) (env (nreq t) (GET root_url))]).
Proof.
  intros H. unfold print_version, try_except, bind, requests_get, http, response_json.
  destruct (env (nreq t) (GET root_url)) as [r|]; cbn in H; [|done].
  destruct (status_code r =? 200); cbn in H; [|done].
  destruct (body r) as [[]|]; done.
Qed.

Lemma print_version_swallows_failures_witness :
  print_version always_500 []
  = (Ret tt, [] ++ [EHttp (GET root_url) (always_500 (nreq []) (GET root_url))]).
Proof. apply (print_version_swallows_failures always_500 []). reflexivity. Defined.

(** ** More on the provisioning loop *)

Lemma create_collection_gets env (name : string) (cfg : collection_config)
    (t new : trace) (res : result bool) :
  create_collection env name cfg t = (res, t ++ new) ->
  gets new = [collection_url name].
Proof.
  intros H.
  destruct (create_collection_attempts env name cfg t new res H)
    as (processed & rest & _ & Hatt & _ & _).
  unfold gets. rewrite Hatt.
  destruct (found _); [done|]. destruct (vectors cfg); [|done].
  cbn. by rewrite gets_index_puts.
Qed.

Section Provisioning.

Variable env : nat -> request -> outcome.

(** The loop runs the provisioner on every item, whatever the results; a
    property of every single call holds of each step. *)
Lemma count_created_each (P : string * collection_config -> bool -> trace -> Prop)
    (table : list (string * collection_config)) :
  Forall (fun item => forall t, exists b new,
            create_collection env (fst item) (snd item) t = (Ret b, t ++ new)
            /\ P item b new) table ->
  forall (acc : Z) (t : trace),
  exists steps : list (bool * trace),
    Forall2 (fun item step => P item (fst step) (snd step)) table steps
    /\ for_fold table acc (tally env) t
       = (Ret (acc + count_true (map fst steps)), t ++ concat (map snd steps)).
Proof.
  induction 1 as [|item table Hitem _ IH]; intros acc t.
  - exists []. split; [constructor|]. cbn. unfold ret, count_true. cbn.
    by rewrite Z.add_0_r, app_nil_r.
  - destruct (Hitem t) as (b & new & E & HP).
    destruct (IH (if b then acc + 1 else acc) (t ++ new)) as (steps & Hsteps & Ef).
    exists ((b, new) :: steps). split; [by constructor|].
    cbn [for_fold map fst snd concat].
    rewrite (bind_run _ _ t (t ++ new) (if b then acc + 1 else acc)).
    + rewrite Ef, count_true_cons, app_assoc. do 2 f_equal. destruct b; lia.
    + unfold tally, provision_item. rewrite (bind_run _ _ t (t ++ new) b) by exact E.
      by destruct b.
Qed.

Lemma count_true_bounds (bs : list bool) :
  0 <= count_true bs <= Z.of_nat (length bs).
Proof.
  unfold count_true. pose proof (List.filter_length_le (fun b : bool => b) bs). lia.
Qed.

Lemma provision_trace (table : list (string * collection_config)) (t : trace)
    (n : Z) (new : trace) :
  for_fold table 0 (tally env) (t ++ [EPrint [Lit nl; Lit "Creating collections..."]])
  = (Ret n, (t ++ [EPrint [Lit nl; Lit "Creating collections..."]]) ++ new) ->
  provision env table t
  = (Ret tt,
     t ++ [EPrint [Lit nl; Lit "Creating collections..."]] ++ new
       ++ [EPrint (summary_line n (Z.of_nat (length table)))]).
Proof.
  intros H. unfold provision.
  erewrite bind_run by reflexivity. cbn beta.
  unfold count_created. erewrite bind_run by exact H. cbn beta.
  unfold print, emit. by rewrite <- !app_assoc.
Qed.

End Provisioning.

Lemma last_snoc_app {A} (l1 l2 : list A) (x : A) : last (l1 ++ l2 ++ [x]) = Some x.
Proof. by rewrite app_assoc, last_snoc. Qed.

(** X16. [provision] calls the provisioner for every item of the table, in
    order, whatever the earlier calls returned: the reads of the loop are
    the existence checks of all the items, the counter stays between 0 and
    the size of the table, and the summary is the last line printed. *)
Theorem provision_checks_every_item env (table : list (string * collection_config))
    (t : trace) :
  exists new count,
    provision env table t = (Ret tt, t ++ new)
    /\ gets new = map (fun item => collection_url (fst item)) table
    /\ 0 <= count <= Z.of_nat (length table)
    /\ last new = Some (EPrint (summary_line count (Z.of_nat (length table)))).
Proof.
  destruct (count_created_each env
              (fun item b new => gets new = [collection_url (fst item)]) table)
    with (acc := 0) (t := t ++ [EPrint [Lit nl; Lit "Creating collections..."]])
    as (steps & Hsteps & E).
  { apply Forall_forall. intros [name cfg] _ t0.
    destruct (create_collection_run env name cfg t0) as (b & new & _ & _ & E & _).
    exists b, new. split; [done|].
    exact (create_collection_gets env name cfg t0 new (Ret b) E). }
  rewrite Z.add_0_l in E.
  eexists _, (count_true (map fst steps)).
  split; [by apply provision_trace|]. split; [|split].
  - rewrite !gets_app. cbn. rewrite app_nil_r. clear E.
    induction Hsteps as [|item step table steps Hstep _ IH]; [done|].
    cbn [map concat]. by rewrite gets_app, Hstep, IH.
  - pose proof (count_true_bounds (map fst steps)) as Hb.
    rewrite length_map in Hb.
    by rewrite (Forall2_length _ _ _ Hsteps).
  - apply last_snoc_app.
Qed.

Lemma count_true_all (P : string * collection_config -> bool -> trace -> Prop)
    (table : list (string * collection_config)) (steps : list (bool * trace)) :
  (forall item b new, P item b new -> b = true) ->
  Forall2 (fun item step => P item (fst step) (snd step)) table steps ->
  count_true (map fst steps) = Z.of_nat (length table).
Proof.
  intros Htrue H. induction H as [|item step table steps Hstep _ IH].
  - done.
  - cbn [map length]. rewrite count_true_cons, IH, (Htrue _ _ _ Hstep). lia.
Qed.

Lemma put_requests_steps (P : string * collection_config -> bool -> trace -> Prop)
    (writes : string * collection_config -> list (string * payload))
    (table : list (string * collection_config)) (steps : list (bool * trace)) :
  (forall item b new, P item b new -> put_requests new = writes item) ->
  Forall2 (fun item step => P item (fst step) (snd step)) table steps ->
  put_requests (concat (map snd steps)) = concat (map writes table).
Proof.
  intros Hw H. induction H as [|item step table steps Hstep _ IH].
  - done.
  - cbn [map concat]. by rewrite put_requests_app, IH, (Hw _ _ _ Hstep).
Qed.

(** The provisioner on a collection that exists. *)
Lemma create_collection_existing env (name : string) (cfg : collection_config)
    (t : trace) :
  found (env (nreq t) (GET (collection_url name))) = true ->
  exists new,
    create_collection env name cfg t = (Ret true, t ++ new)
    /\ put_requests new = [].
Proof.
  intros Hyes.
  destruct (create_collection_paths env name cfg t) as (b & new & E & Hpath).
  destruct Hpath as [(_ & -> & ->)|[(Hf & _)|(vs & out1 & Hf & _)]];
    [|congruence|congruence].
  eexists. split; [exact E|done].
Qed.

(** The provisioner on an absent collection, against a service that
    accepts every write. *)
Lemma create_collection_fresh env (name : string) (cfg : collection_config)
    (t : trace) :
  (forall n url data,
     exists r, env n (PUT url data) = Responds r
               /\ created_status (status_code r) = true) ->
  vectors cfg <> None ->
  found (env (nreq t) (GET (collection_url name))) = false ->
  exists new,
    create_collection env name cfg t = (Ret true, t ++ new)
    /\ put_requests new = expected_puts (name, cfg).
Proof.
  intros Hput Hvectors Hno.
  destruct (create_collection env name cfg t) as [res t'] eqn:H.
  destruct (create_collection_paths env name cfg t) as (b & new & E & Hpath).
  rewrite H in E. injection E as -> ->.
  destruct Hpath as
    [(Hfound & _)
    |[(_ & Hvs & _)
     |(vs & out1 & _ & Hvs & Hout &
        [(-> & _)
        |[(r & -> & Hst & _)
         |(r & loop & processed & rest & -> & Hst & Hfields & Hatt & Hcs &
             [(-> & -> & Hraised & ->)|(_ & _ & (n & field & Hfails) & _)])]])]].
  - congruence.
  - congruence.
  - destruct (Hput (nreq t + 1)%nat (collection_url name) (CreateBody vs))
      as (r & Hr & _). congruence.
  - destruct (Hput (nreq t + 1)%nat (collection_url name) (CreateBody vs))
      as (r' & Hr & Hok). rewrite Hr in Hout. injection Hout as ->. congruence.
  - eexists. split; [reflexivity|].
    rewrite app_nil_r in Hfields.
    rewrite put_requests_attempts. cbn [app].
    change (attempts (?a :: ?b :: ?c :: loop)) with (GET (collection_url name)
      :: PUT (collection_url name) (CreateBody vs) :: attempts loop).
    rewrite Hatt. unfold expected_puts. cbn [fst snd]. rewrite Hvs, Hfields.
    change (puts_of (?a :: ?b :: ?l)) with ((collection_url name, CreateBody vs)
      :: puts_of l).
    by rewrite puts_of_index_puts.
  - unfold index_put in Hfails.
    destruct (Hput n (index_url name)
                (IndexBody (fst field) (declared_schema (snd field))))
      as (r' & Hr & _). congruence.
Qed.

Section ProvisioningScenarios.

Variable env : nat -> request -> outcome.
Variable table : list (string * collection_config).

Lemma provision_run (t : trace) :
  exists new, provision env table t = (Ret tt, t ++ new).
Proof.
  destruct (count_created_each env (fun _ _ _ => True) table)
    with (acc := 0) (t := t ++ [EPrint [Lit nl; Lit "Creating collections..."]])
    as (steps & _ & E).
  { apply Forall_forall. intros [name cfg] _ t0.
    destruct (create_collection_run env name cfg t0) as (b & new & _ & _ & E & _).
    by exists b, new. }
  eexists. by apply provision_trace.
Qed.

Lemma provision_gets (t new : trace) (res : result unit) :
  provision env table t = (res, t ++ new) ->
  gets new = map (fun item => collection_url (fst item)) table.
Proof.
  intros H.
  destruct (count_created_each env
              (fun item b new => gets new = [collection_url (fst item)]) table)
    with (acc := 0) (t := t ++ [EPrint [Lit nl; Lit "Creating collections..."]])
    as (steps & Hsteps & E).
  { apply Forall_forall. intros [name cfg] _ t0.
    destruct (create_collection_run env name cfg t0) as (b & new0 & _ & _ & E & _).
    exists b, new0. split; [done|].
    exact (create_collection_gets env name cfg t0 new0 (Ret b) E). }
  rewrite (provision_trace env table t _ _ E) in H.
  injection H as _ Hnew%app_inv_head. subst new.
  change (gets (?e :: ?l)) with (gets l).
  rewrite !gets_app. cbn. rewrite app_nil_r. clear E.
  induction Hsteps as [|item step table' steps Hstep _ IH]; [done|].
  cbn [map concat]. by rewrite gets_app, Hstep, IH.
Qed.

Lemma provision_existing_run (t : trace) :
  Forall (fun item => forall n,
            found (env n (GET (collection_url (fst item)))) = true) table ->
  exists new,
    provision env table t = (Ret tt, t ++ new)
    /\ put_requests new = []
    /\ last new
       = Some (EPrint (summary_line (Z.of_nat (length table))
                                    (Z.of_nat (length table)))).
Proof.
  intros Hall.
  destruct (count_created_each env
              (fun item b new => b = true /\ put_requests new = []) table)
    with (acc := 0) (t := t ++ [EPrint [Lit nl; Lit "Creating collections..."]])
    as (steps & Hsteps & E).
  { eapply Forall_impl; [exact Hall|]. intros [name cfg] Hitem t0.
    destruct (create_collection_existing env name cfg t0 (Hitem _)) as (new & E & Hp).
    by exists true, new. }
  rewrite Z.add_0_l in E.
  rewrite (count_true_all (fun _ b new => b = true /\ put_requests new = [])
             table steps) in E; [|by intros ? ? ? [? _]|done].
  eexists. split; [by apply provision_trace|]. split; [|apply last_snoc_app].
  rewrite !put_requests_app.
  rewrite (put_requests_steps (fun _ b new => b = true /\ put_requests new = [])
             (fun _ => []) table steps); [|by intros ? ? ? [_ ?]|done].
  cbn. clear. induction table as [|item tbl IH]; [done|]. apply IH.
Qed.

Lemma provision_fresh_run (t : trace) :
  (forall n url data,
     exists r, env n (PUT url data) = Responds r
               /\ created_status (status_code r) = true) ->
  Forall (fun item =>
            vectors (snd item) <> None
            /\ forall n, found (env n (GET (collection_url (fst item)))) = false)
         table ->
  exists new,
    provision env table t = (Ret tt, t ++ new)
    /\ put_requests new = concat (map expected_puts table)
    /\ last new
       = Some (EPrint (summary_line (Z.of_nat (length table))
                                    (Z.of_nat (length table)))).
Proof.
  intros Hput Hall.
  destruct (count_created_each env
              (fun item b new => b = true /\ put_requests new = expected_puts item)
              table)
    with (acc := 0) (t := t ++ [EPrint [Lit nl; Lit "Creating collections..."]])
    as (steps & Hsteps & E).
  { eapply Forall_impl; [exact Hall|]. intros [name cfg] [Hv Hitem] t0.
    destruct (create_collection_fresh env name cfg t0 Hput Hv (Hitem _))
      as (new & E & Hp).
    by exists true, new. }
  rewrite Z.add_0_l in E.
  rewrite (count_true_all
             (fun item b new => b = true /\ put_requests new = expected_puts item)
             table steps) in E; [|by intros ? ? ? [? _]|done].
  eexists. split; [by apply provision_trace|]. split; [|apply last_snoc_app].
  rewrite !put_requests_app.
  rewrite (put_requests_steps
             (fun item b new => b = true /\ put_requests new = expected_puts item)
             expected_puts table steps); [|by intros ? ? ? [_ ?]|done].
  cbn. by rewrite app_nil_r.
Qed.

End ProvisioningScenarios.

(** X17. Provisioning a table whose collections all exist is read-only:
    no write is issued, every item counts as a success, and the summary
    reports all of them. *)
Theorem provision_existing_is_read_only env
    (table : list (string * collection_config)) (t : trace) :
  Forall (fun item => forall n,
            found (env n (GET (collection_url (fst item)))) = true) table ->
  exists new,
    provision env table t = (Ret tt, t ++ new)
    /\ put_requests new = []
    /\ gets new = map (fun item => collection_url (fst item)) table
    /\ last new
       = Some (EPrint (summary_line (Z.of_nat (length table))
                                    (Z.of_nat (length table)))).
Proof.
  intros Hall.
  destruct (provision_existing_run env table t Hall) as (new & E & Hp & Hl).
  exists new. split_and!; [done | done | | done].
  exact (provision_gets env table t new (Ret tt) E).
Qed.

Lemma provision_existing_is_read_only_witness :
  exists new,
    provision always_200 sample_table [] = (Ret tt, [] ++ new)
    /\ put_requests new = []
    /\ gets new = map (fun item => collection_url (fst item)) sample_table
    /\ last new
       = Some (EPrint (summary_line (Z.of_nat (length sample_table))
                                    (Z.of_nat (length sample_table)))).
Proof.
  apply (provision_existing_is_read_only always_200 sample_table []).
  apply Forall_forall. intros item _ n. reflexivity.
Defined.

(** X18. Provisioning absent collections against a service that accepts
    every write: for each item of the table, in order, the creation
    request is followed by the index requests of all its payload fields,
    and the summary reports every item as created. *)
Theorem provision_fresh_store_writes env (table : list (string * collection_config))
    (t : trace) :
  (forall n url data,
     exists r, env n (PUT url data) = Responds r
               /\ created_status (status_code r) = true) ->
  Forall (fun item =>
            vectors (snd item) <> None
            /\ forall n, found (env n (GET (collection_url (fst item)))) = false)
         table ->
  exists new,
    provision env table t = (Ret tt, t ++ new)
    /\ put_requests new = concat (map expected_puts table)
    /\ last new
       = Some (EPrint (summary_line (Z.of_nat (length table))
                                    (Z.of_nat (length table)))).
Proof. apply provision_fresh_run. Qed.

Lemma provision_fresh_store_writes_witness :
  exists new,
    provision fresh_store COLLECTIONS [] = (Ret tt, [] ++ new)
    /\ put_requests new = concat (map expected_puts COLLECTIONS)
    /\ last new
       = Some (EPrint (summary_line (Z.of_nat (length COLLECTIONS))
                                    (Z.of_nat (length COLLECTIONS)))).
Proof.
  apply (provision_fresh_store_writes fresh_store COLLECTIONS []).
  - intros n url data. exists ok_response. split; reflexivity.
  - unfold COLLECTIONS. repeat apply Forall_cons_2; try apply Forall_nil_2;
      (split; [discriminate | intros n; vm_compute; reflexivity]).
Defined.

(** ** More on the orchestration *)

Lemma banner_app (t : trace) :
  ((t ++ [EPrint [Lit rule]]) ++ [EPrint [Lit "Qdrant Collection Initializer"]])
  ++ [EPrint [Lit rule]]
  = t ++ banner.
Proof. by rewrite <- !app_assoc. Qed.

Lemma nreq_banner (t : trace) : nreq (t ++ banner) = nreq t.
Proof. rewrite nreq_app. cbn. lia. Qed.

Section Orchestration.

Variable pf : platform.
Variable env : nat -> request -> outcome.

(** A run of [main] that finds the service unavailable. *)
Lemma main_unavailable_run (t : trace) :
  never_ready env (nreq t) 30 = true ->
  exists w,
    main pf env t
    = (Raise (SystemExit 1),
       t ++ banner ++ w ++ [EPrint [Lit nl; Lit "Exiting: Qdrant is not available"]])
    /\ actions w = polling 30 2.
Proof.
  intros Hnever. unfold main.
  do 3 (erewrite bind_run by reflexivity). rewrite banner_app.
  destruct (wait_for_qdrant_run pf env 30 2 (t ++ banner))
    as (b & w & k & E & _ & A & Hb & Hk & _); [apply sleep_two|].
  rewrite nreq_banner in Hb. change (Z.to_nat 30) with 30%nat in *.
  rewrite Hnever in Hb. subst b. rewrite (Hk eq_refl) in A.
  erewrite bind_run by exact E. cbn [negb].
  erewrite bind_raise.
  - exists w. split; [reflexivity|done].
  - erewrite bind_run by reflexivity. unfold sys_exit, raise.
    by rewrite <- !app_assoc.
Qed.

(** A run of [main] that completes: its five stages. *)
Lemma main_normal_run (t : trace) :
  never_ready env (nreq t) 30 = false ->
  exists (k : nat) (w v p l : trace),
    main pf env t = (Ret tt, t ++ banner ++ w ++ v ++ p ++ l ++ closing_banner)
    /\ (1 <= k <= 30)%nat
    /\ actions w = polling k 2
    /\ print_version env (t ++ banner ++ w) = (Ret tt, (t ++ banner ++ w) ++ v)
    /\ provision env COLLECTIONS (t ++ banner ++ w ++ v)
       = (Ret tt, (t ++ banner ++ w ++ v) ++ p)
    /\ list_collections env (t ++ banner ++ w ++ v ++ p)
       = (Ret tt, (t ++ banner ++ w ++ v ++ p) ++ l).
Proof.
  intros Hready. unfold main.
  do 3 (erewrite bind_run by reflexivity). rewrite banner_app.
  destruct (wait_for_qdrant_run pf env 30 2 (t ++ banner))
    as (b & w & k & E & Hle & A & Hb & _ & Hk); [apply sleep_two|].
  rewrite nreq_banner in Hb. change (Z.to_nat 30) with 30%nat in *.
  rewrite Hready in Hb. subst b. destruct (Hk eq_refl) as [Hk1 _].
  erewrite bind_run by exact E. cbn [negb].
  erewrite bind_run by reflexivity.
  destruct (print_version_run env ((t ++ banner) ++ w)) as (lv & Ev).
  set (v := EHttp _ _ :: map EPrint lv) in Ev.
  erewrite bind_run by exact Ev.
  destruct (provision_run env COLLECTIONS (((t ++ banner) ++ w) ++ v)) as (p & Ep).
  erewrite bind_run by exact Ep.
  destruct (list_collections_run env ((((t ++ banner) ++ w) ++ v) ++ p)) as (ll & El).
  set (l := EHttp _ _ :: map EPrint ll) in El.
  erewrite bind_run by exact El.
  do 3 (erewrite bind_run by reflexivity). unfold print, emit.
  exists k, w, v, p, l.
  rewrite <- !app_assoc in *. split_and!; try done; lia.
Qed.

End Orchestration.

Lemma gets_probes (k : nat) (delay : Z) (w : trace) :
  actions w = polling k delay -> gets w = replicate k root_url.
Proof.
  intros A. unfold gets. rewrite (polling_attempts k delay w A).
  clear. induction k as [|k IH]; [done|]. cbn. by rewrite IH.
Qed.

Lemma last_app_nonempty {A} (l1 l2 : list A) : l2 <> [] -> last (l1 ++ l2) = last l2.
Proof.
  intros H. destruct (exists_last H) as (l & x & ->). by rewrite app_assoc, !last_snoc.
Qed.

(** X19. When the service never becomes reachable, [main] makes its thirty
    liveness requests with twenty-nine sleeps of two seconds and exits with
    [SystemExit(1)] right after the line that announces it: no collection
    is checked, nothing is written, and the inventory is not requested. *)
Theorem main_unavailable pf env (t : trace) :
  never_ready env (nreq t) 30 = true ->
  exists new,
    main pf env t = (Raise (SystemExit 1), t ++ new)
    /\ attempts new = replicate 30 (GET root_url)
    /\ sleeps new = replicate 29 2
    /\ put_requests new = []
    /\ last new = Some (EPrint [Lit nl; Lit "Exiting: Qdrant is not available"]).
Proof.
  intros Hnever.
  destruct (main_unavailable_run pf env t Hnever) as (w & E & A).
  eexists. split; [exact E|].
  assert (attempts (banner ++ w
                    ++ [EPrint [Lit nl; Lit "Exiting: Qdrant is not available"]])
          = replicate 30 (GET root_url)) as Hatt.
  { rewrite !attempts_app. cbn [banner]. rewrite (polling_attempts 30 2 w A). done. }
  split_and!.
  - done.
  - rewrite !sleeps_app. rewrite (polling_sleeps 30 2 w A). done.
  - rewrite put_requests_attempts, Hatt. apply (puts_of_gets 30).
  - by rewrite app_assoc, last_snoc.
Qed.

Lemma main_unavailable_witness :
  exists new,
    main linux unreachable [] = (Raise (SystemExit 1), [] ++ new)
    /\ attempts new = replicate 30 (GET root_url)
    /\ sleeps new = replicate 29 2
    /\ put_requests new = []
    /\ last new = Some (EPrint [Lit nl; Lit "Exiting: Qdrant is not available"]).
Proof. apply (main_unavailable linux unreachable []). vm_compute. reflexivity. Defined.

(** X20. A run of [main] that finds the service reads, in this order: the
    root address until the first success ([k] times, at most 30), the root
    address once more for the version, each collection of [COLLECTIONS] in
    the order of the table, and the listing; it ends with the closing
    banner. Failures of the provisioning calls change none of this. *)
Theorem main_reads_in_order pf env (t : trace) :
  never_ready env (nreq t) 30 = false ->
  exists new before (k : nat),
    main pf env t = (Ret tt, t ++ new)
    /\ (1 <= k <= 30)%nat
    /\ gets new
       = replicate k root_url ++ [root_url]
         ++ map (fun item => collection_url (fst item)) COLLECTIONS
         ++ [listing_url]
    /\ new = before ++ closing_banner.
Proof.
  intros Hready.
  destruct (main_normal_run pf env t Hready) as (k & w & v & p & l & E & Hk & A & Ev & Ep & El).
  exists (banner ++ w ++ v ++ p ++ l ++ closing_banner),
    (banner ++ w ++ v ++ p ++ l), k.
  split_and!; [done | lia | lia | | by rewrite <- !app_assoc].
  rewrite !gets_app.
  rewrite (gets_probes k 2 w A).
  rewrite (provision_gets env COLLECTIONS _ p (Ret tt) Ep).
  destruct (print_version_run env (t ++ banner ++ w)) as (lv & Ev').
  rewrite Ev in Ev'. injection Ev' as Hv%app_inv_head.
  destruct (list_collections_run env (t ++ banner ++ w ++ v ++ p)) as (ll & El').
  rewrite El in El'. injection El' as Hl%app_inv_head.
  rewrite Hv, Hl.
  change (gets (EHttp (GET ?u) ?o :: map EPrint ?ls))
    with (u :: gets (map EPrint ls)).
  unfold gets at 2 3. rewrite !gets_of_printed. cbn. done.
Qed.

Lemma main_reads_in_order_witness :
  exists new before (k : nat),
    main linux refuses_creation [] = (Ret tt, [] ++ new)
    /\ (1 <= k <= 30)%nat
    /\ gets new
       = replicate k root_url ++ [root_url]
         ++ map (fun item => collection_url (fst item)) COLLECTIONS
         ++ [listing_url]
    /\ new = before ++ closing_banner.
Proof. apply (main_reads_in_order linux refuses_creation []). vm_compute. reflexivity. Defined.

(** X21. Running the script against a store that already holds every
    collection of [COLLECTIONS] writes nothing, whether or not the service
    is found; when it is found, the summary reports four of four. *)
Theorem main_rerun_is_read_only pf env (t : trace) :
  Forall (fun item => forall n,
            found (env n (GET (collection_url (fst item)))) = true) COLLECTIONS ->
  put_requests (snd (main pf env t)) = put_requests t
  /\ (never_ready env (nreq t) 30 = false ->
      In (EPrint (summary_line 4 4)) (snd (main pf env t))).
Proof.
  intros Hall. destruct (never_ready env (nreq t) 30) eqn:Hready.
  - split; [|done].
    destruct (main_unavailable_run pf env t Hready) as (w & E & A).
    rewrite E. cbn [snd]. rewrite !put_requests_app.
    rewrite (put_requests_attempts w), (polling_attempts 30 2 w A), puts_of_gets.
    cbn. by rewrite app_nil_r.
  - destruct (main_normal_run pf env t Hready)
      as (k & w & v & p & l & E & Hk & A & Ev & Ep & El).
    destruct (provision_existing_run env COLLECTIONS (t ++ banner ++ w ++ v) Hall)
      as (p' & Ep' & Hputs & Hlast).
    rewrite Ep in Ep'. injection Ep' as ->%app_inv_head.
    destruct (print_version_run env (t ++ banner ++ w)) as (lv & Ev').
    rewrite Ev in Ev'. injection Ev' as Hv%app_inv_head.
    destruct (list_collections_run env (t ++ banner ++ w ++ v ++ p')) as (ll & El').
    rewrite El in El'. injection El' as Hl%app_inv_head.
    rewrite E. cbn [snd]. rewrite Hv, Hl. split.
    + rewrite !put_requests_app, Hputs.
      rewrite (put_requests_attempts w), (polling_attempts k 2 w A), puts_of_gets.
      rewrite !put_requests_attempts.
      change (attempts (EHttp (GET ?u) ?o :: map EPrint ?ls))
        with (GET u :: attempts (map EPrint ls)).
      rewrite !gets_of_printed. cbn. by rewrite app_nil_r.
    + intros _. apply last_Some in Hlast as (p0 & ->).
      rewrite !in_app_iff. do 4 right. left. right. by left.
Qed.

Lemma main_rerun_is_read_only_witness :
  put_requests (snd (main linux always_200 [])) = put_requests []
  /\ (never_ready always_200 (nreq []) 30 = false ->
      In (EPrint (summary_line 4 4)) (snd (main linux always_200 []))).
Proof.
  apply (main_rerun_is_read_only linux always_200 []).
  unfold COLLECTIONS. repeat apply Forall_cons_2; try apply Forall_nil_2;
    intros n; reflexivity.
Defined.
